(** * data-profile: a shallow embedding of [src/index.ts]

    The profiler takes a table (an array of records with string keys and
    values of any JavaScript kind) and returns a summary.  The embedding
    keeps the source's function names.  JavaScript numbers are IEEE-754
    binary64 values, which are exactly Rocq's primitive floats; a record
    is a plain object, a finite map of own properties with the members of
    [Object.prototype] behind it; insertion-ordered [Map]s and [Set]s,
    whose order is observable, are lists.  Strings are sequences of code
    units compared unit by unit, as [Array.prototype.sort] compares them;
    the units of the model are 8 bits wide. *)

From Stdlib Require Import Floats ZArith Uint63.
From stdpp Require Import gmap strings list fin_maps sorting.

Local Open Scope string_scope.

(** ** JavaScript values *)

(** The cells of a table are JavaScript values: [undefined], [null],
    numbers, strings, booleans, objects (plain objects, arrays, dates,
    regular expressions, all of type ['object']) and functions, which the
    read of a column named like a member of [Object.prototype] finds
    there.  Symbols and big integers are left out.

    An object is opaque to the profiler.  What the code can observe of it
    is its identity (in [new Set(...)]), the result of [JSON.stringify] and
    the result of its [toString()] method; the model carries these three.
    Of a function the code can observe its identity and the text that
    [String] and [toString()] give.  The object of reference 1 is
    [Object.prototype], and the functions of references 1 to 11 are its
    built-in members. *)
Record object := Object {
  obj_ref : positive;
  obj_json : string;
  obj_toString : string
}.

Record fn := Fn {
  fn_ref : positive;
  fn_source : string
}.

Inductive value :=
  | VUndefined
  | VNull
  | VNumber (x : float)
  | VString (s : string)
  | VBoolean (b : bool)
  | VObject (o : object)
  | VFunction (f : fn).

(** [typeof v] *)
Definition typeof (v : value) : string :=
  match v with
  | VUndefined => "undefined"
  | VNull => "object"
  | VNumber _ => "number"
  | VString _ => "string"
  | VBoolean _ => "boolean"
  | VObject _ => "object"
  | VFunction _ => "function"
  end.

(** [v !== undefined && v !== null] *)
Definition notMissing (v : value) : bool :=
  match v with
  | VUndefined | VNull => false
  | _ => true
  end.

(** ** Numbers *)

Module Number.
Local Open Scope float_scope.

(** An array length or a counter, as a number (exact below 2^53). *)
Definition of_nat (n : nat) : float :=
  PrimFloat.of_uint63 (Uint63.of_Z (Z.of_nat n)).

(** [isNaN(x)] *)
Definition isNaN (x : float) : bool := PrimFloat.is_nan x.

(** [x ** 2]: the correctly rounded square. *)
Definition sq (x : float) : float := x * x.

(** The integer [Math.floor(x)] of a finite [x]. *)
Definition floorZ (x : float) : Z :=
  match Prim2SF x with
  | S754_finite s m e =>
      let q := if (0 <=? e)%Z then (Z.pos m * 2 ^ e)%Z
               else (Z.pos m / 2 ^ (- e))%Z in
      let exact := if (0 <=? e)%Z then true
                   else (Z.pos m mod 2 ^ (- e) =? 0)%Z in
      if s then (if exact then - q else - q - 1)%Z else q
  | _ => 0%Z
  end.

(** [Math.floor(x)]; integers below 2^53 convert back exactly, and a
    finite float with a non-negative exponent is its own floor. *)
Definition Math_floor (x : float) : float :=
  match Prim2SF x with
  | S754_finite s m e =>
      if (0 <=? e)%Z then x
      else
        let z := floorZ x in
        if (z =? 0)%Z then (if s then (-0) else 0)
        else if (z <? 0)%Z then - PrimFloat.of_uint63 (Uint63.of_Z (- z))
        else PrimFloat.of_uint63 (Uint63.of_Z z)
  | _ => x
  end.

(** [Math.min(a, b)] and [Math.max(a, b)]: NaN is contagious and
    [-0] is below [+0]. *)
Definition min2 (a b : float) : float :=
  if is_nan a || is_nan b then nan
  else if a <? b then a
  else if b <? a then b
  else if PrimFloat.get_sign a then a else b.

Definition max2 (a b : float) : float :=
  if is_nan a || is_nan b then nan
  else if b <? a then a
  else if a <? b then b
  else if PrimFloat.get_sign a then b else a.

(** [Math.min(...nums)] and [Math.max(...nums)] *)
Definition Math_min (nums : list float) : float := foldl min2 infinity nums.
Definition Math_max (nums : list float) : float := foldl max2 neg_infinity nums.

(** [nums.reduce((a, b) => a + b, 0)] *)
Definition sum (nums : list float) : float := foldl PrimFloat.add 0 nums.

(** [arr[i]] for a number [i] holding an index.  An index outside the
    array reads [undefined], which is NaN in arithmetic. *)
Definition at_index (arr : list float) (i : float) : float :=
  default nan (arr !! Z.to_nat (floorZ i)).
End Number.

(** ** Insertion-ordered sets and maps, and [Array.prototype.sort] *)

Section JsSet.
Context {A : Type} (same : A → A → bool).

(** [s.has(x)] *)
Definition Set_has (s : list A) (x : A) : bool := existsb (same x) s.

(** [s.add(x)]: a new element goes last. *)
Definition Set_add (s : list A) (x : A) : list A :=
  if Set_has s x then s else s ++ [x].

(** [new Set(l)], as the list [Array.from] gives back. *)
Definition Set_from (l : list A) : list A := foldl Set_add [] l.
End JsSet.

Section JsMap.
Context {V : Type}.

(** [m.get(k)] *)
Fixpoint Map_get (m : list (string * V)) (k : string) : option V :=
  match m with
  | [] => None
  | (k', v) :: m' => if String.eqb k k' then Some v else Map_get m' k
  end.

(** [m.set(k, v)]: an existing key keeps its position, a new one
    goes last. *)
Fixpoint Map_set (m : list (string * V)) (k : string) (v : V)
  : list (string * V) :=
  match m with
  | [] => [(k, v)]
  | (k', v') :: m' =>
      if String.eqb k k' then (k, v) :: m' else (k', v') :: Map_set m' k v
  end.
End JsMap.

Section JsSort.
Context {A : Type} (before : A → A → bool).

(** [before a b] stands for [compare(a, b) < 0], for a comparator that
    is consistent, as the language asks of it.  The sort is stable, as the
    language requires: an element is placed after those that are not
    behind it. *)
Fixpoint sort_insert (x : A) (l : list A) : list A :=
  match l with
  | [] => [x]
  | y :: l' => if before x y then x :: y :: l' else y :: sort_insert x l'
  end.

Definition Array_sort (l : list A) : list A :=
  foldl (λ acc x, sort_insert x acc) [] l.
End JsSort.

(** ** Records

    A record of the table is a plain object, as an object literal or
    [JSON.parse] gives: the finite map of its own properties, all
    enumerable, with [Object.prototype] as its prototype.  The operator
    [in] and the read [row[col]] see the members of [Object.prototype]
    where the record has no property of its own under the name;
    [Object.keys] lists own properties only. *)
Abbreviation Row := (gmap string value).

(** [Object.prototype] itself: it has no enumerable property. *)
Definition Object_prototype_object : object :=
  {| obj_ref := 1; obj_json := "{}"; obj_toString := "[object Object]" |}.

(** What a read finds on [Object.prototype]: eleven built-in functions,
    and the accessor [__proto__], whose getter returns the prototype of the
    record, [Object.prototype]. *)
Definition Object_prototype : list (string * value) :=
  [ ("constructor",
     VFunction (Fn 1 "function Object() { [native code] }"));
    ("__defineGetter__",
     VFunction (Fn 2 "function __defineGetter__() { [native code] }"));
    ("__defineSetter__",
     VFunction (Fn 3 "function __defineSetter__() { [native code] }"));
    ("hasOwnProperty",
     VFunction (Fn 4 "function hasOwnProperty() { [native code] }"));
    ("__lookupGetter__",
     VFunction (Fn 5 "function __lookupGetter__() { [native code] }"));
    ("__lookupSetter__",
     VFunction (Fn 6 "function __lookupSetter__() { [native code] }"));
    ("isPrototypeOf",
     VFunction (Fn 7 "function isPrototypeOf() { [native code] }"));
    ("propertyIsEnumerable",
     VFunction (Fn 8 "function propertyIsEnumerable() { [native code] }"));
    ("toString",
     VFunction (Fn 9 "function toString() { [native code] }"));
    ("valueOf",
     VFunction (Fn 10 "function valueOf() { [native code] }"));
    ("__proto__", VObject Object_prototype_object);
    ("toLocaleString",
     VFunction (Fn 11 "function toLocaleString() { [native code] }")) ].

(** The member of [Object.prototype] named [col], if there is one. *)
Definition inherited (col : string) : option value :=
  Map_get Object_prototype col.

(** [row[col]]: the own property, else the inherited member, else
    [undefined]. *)
Definition get (row : Row) (col : string) : value :=
  match row !! col with
  | Some v => v
  | None => default VUndefined (inherited col)
  end.

(** [col in row] *)
Definition has_key (col : string) (row : Row) : bool :=
  bool_decide (is_Some (row !! col)) || bool_decide (is_Some (inherited col)).

(** [col in row ? row[col] : undefined] *)
Definition get_in (row : Row) (col : string) : value :=
  if has_key col row then get row col else VUndefined.

(** [Object.keys(row)] *)
Definition Object_keys (row : Row) : list string := (map_to_list row).*1.

(** ** Objects filled by assignment

    The results are plain objects filled by assignments [obj[c] = v], [c]
    a column.  A map [written] records, for every name assigned, the value
    last assigned.  For every name but ['__proto__'] that value is the own
    property [obj[c]].  The assignment [obj['__proto__'] = v] creates no
    property: it runs the setter inherited from [Object.prototype], which
    makes [v] the prototype of [obj] when [v] is an object and does nothing
    when [v] is a number; where [v] is an object, the read
    [obj['__proto__']] then returns [v].  So the code reads from [written]
    and the object it returns has the properties [ownProperties written]. *)
Definition ownProperties {V : Type} (written : gmap string V)
  : gmap string V :=
  delete "__proto__" written.

(** ** The summary ([ProfileSummary]) and the options ([ProfileOptions]) *)

Module NumericStats.
Record t := mk {
  min : float;
  max : float;
  mean : float;
  median : float;
  quartiles : float * float * float;
  stddev : float;
  percentiles : list (nat * float)
}.
End NumericStats.

Module CategoricalStats.
Record t := mk {
  unique : nat;
  top10 : list (string * nat);    (* [{ value, count }] *)
  hhi : float
}.
End CategoricalStats.

Record ColumnStat := {
  present : nat;
  missing : nat;
  types : list string;
  numericStats : option NumericStats.t;
  categoricalStats : option CategoricalStats.t
}.

Record FunctionalDependency := { from : list string; to : string }.

Record KeysAndDependencies := {
  candidatePrimaryKeys : list (list string);
  functionalDependencies : list FunctionalDependency
}.

Record MissingnessPatterns := {
  perColumnRates : gmap string float;
  topCoMissingPairs : list ((string * string) * nat)   (* [{ pair, count }] *)
}.

Record Outliers := { tukeyCount : nat; zscoreCount : nat }.

Record CatEntropy := { entropy : float; tailShareOutsideTop10 : float }.

Module ProfileOptions.
(** An absent option reads as [false]. *)
Record t := mk {
  associationMatrix : bool;
  keysDependencies : bool;
  missingnessPatterns : bool;
  outliers : bool;
  categoricalEntropy : bool
}.
End ProfileOptions.

(** An optional field of the summary is [None] when the result object
    does not have it.  A field that is an object filled by assignment
    holds the own properties of that object, and a sample row those of the
    row. *)
Record ProfileSummary := {
  rowCount : nat;
  columns : list string;
  columnStats : gmap string ColumnStat;
  associationMatrix : option (gmap string (gmap string float));
  keysAndDependencies : option KeysAndDependencies;
  missingnessPatterns : option MissingnessPatterns;
  outliers : option (gmap string Outliers);
  categoricalEntropy : option (gmap string CatEntropy);
  sampleRows : list Row
}.

(** ** Built-ins of the host

    Three built-ins of the host have no counterpart among the float
    primitives and are left open: the decimal rendering of a number
    ([Number::toString]); [Math.log2], which the language specifies only
    up to an implementation-chosen approximation; and the order in which
    [Array.prototype.sort] leaves an array when its comparator is not
    consistent, which is implementation-defined: the result is some
    rearrangement of the array. *)

Class Builtins := {
  Number_toString : float → string;
  Math_log2 : float → float;
  Array_sort_inconsistent : list float → list float;
  Array_sort_inconsistent_Permutation :
    ∀ nums, Array_sort_inconsistent nums ≡ₚ nums
}.

(** ** Per-column statistics *)

Section Statistics.
Import Number.
Context `{Builtins}.
Local Open Scope float_scope.

Definition percentile (sorted : list float) (p : float) : float :=
  if (length sorted =? 0)%nat then nan
  else if p <=? 0 then at_index sorted 0
  else if 100 <=? p then at_index sorted (of_nat (length sorted - 1))
  else
    let index := (p / 100) * of_nat (length sorted - 1) in
    let lower := Math_floor index in
    let upper := lower + 1 in
    let weight := index - lower in
    if of_nat (length sorted) <=? upper then at_index sorted lower
    else at_index sorted lower * (1 - weight) + at_index sorted upper * weight.

(** [[...nums].sort((a, b) => a - b)].  Without NaN among the values the
    comparator is consistent: [a - b] is negative exactly when [a] is below
    [b], and a difference that is NaN, that of two equal infinities, counts
    as 0.  A NaN compares as equal to every value, so that with a NaN
    among them the comparator need not be consistent, and the order of the
    result is the host's. *)
Definition sortNumbers (nums : list float) : list float :=
  if existsb PrimFloat.is_nan nums then Array_sort_inconsistent nums
  else Array_sort (λ a b, a - b <? 0) nums.

Definition computeNumericStats (nums : list float) : option NumericStats.t :=
  if (length nums =? 0)%nat then None
  else
    let min := Math_min nums in
    let max := Math_max nums in
    let sum := sum nums in
    let mean := sum / of_nat (length nums) in
    let sorted := sortNumbers nums in
    let median := percentile sorted 50 in
    let q1 := percentile sorted 25 in
    let q3 := percentile sorted 75 in
    let quartiles := (q1, median, q3) in
    let variance :=
      if (1 <? length nums)%nat
      then foldl (λ a x, a + sq (x - mean)) 0 nums / of_nat (length nums - 1)
      else 0 in
    let stddev := PrimFloat.sqrt variance in
    let percentiles :=
      [(10%nat, percentile sorted 10); (90%nat, percentile sorted 90)] in
    Some (NumericStats.mk min max mean median quartiles stddev percentiles).

(** [cats.forEach((v) => freq.set(v, (freq.get(v) || 0) + 1))] *)
Definition frequencies (cats : list string) : list (string * nat) :=
  foldl (λ freq v, Map_set freq v (default 0%nat (Map_get freq v) + 1)%nat)
        [] cats.

Definition computeCategoricalStats (cats : list string)
  : option CategoricalStats.t :=
  if (length cats =? 0)%nat then None
  else
    let freq := frequencies cats in
    let unique := length freq in
    let top10 := take 10 (Array_sort (λ a b, (b.2 <? a.2)%nat) freq) in
    let hhi :=
      foldl (λ hhi count,
               let share := of_nat count / of_nat (length cats) in
               hhi + sq (share * 100))
            0 (freq.*2) in
    Some (CategoricalStats.mk unique top10 hhi).

Definition getType (stat : ColumnStat) : string :=
  if numericStats stat is Some _ then "numeric"
  else if categoricalStats stat is Some _ then "categorical"
  else "other".
End Statistics.

(** ** The optional components *)

Section Host.
Import Number.
Context `{Builtins}.

(** [String(v)]. *)
Definition String_ (v : value) : string :=
  match v with
  | VUndefined => "undefined"
  | VNull => "null"
  | VNumber x => Number_toString x
  | VString s => s
  | VBoolean b => if b then "true" else "false"
  | VObject o => obj_toString o
  | VFunction f => fn_source f
  end.

(** [v.toString()]; every call in the source is on a value that is
    neither [null] nor [undefined], where it agrees with [String(v)]. *)
Definition toString (v : value) : string := String_ v.

(** [typeof v === 'object' && v !== null ? JSON.stringify(v) : String(v)] *)
Definition stringKey (v : value) : string :=
  match v with
  | VObject o => obj_json o
  | _ => String_ v
  end.

Local Open Scope float_scope.

(** The rows where both cells are of type [number], in order. *)
Definition numberPairs (data : list Row) (c1 c2 : string)
  : list (float * float) :=
  omap (λ row, match get row c1, get row c2 with
               | VNumber v1, VNumber v2 => Some (v1, v2)
               | _, _ => None
               end) data.

Definition pearsonFromData (data : list Row) (c1 c2 : string) : float :=
  let paired := numberPairs data c1 c2 in
  if (length paired <? 2)%nat then nan
  else
    let n := of_nat (length paired) in
    let mx := foldl (λ a xy, a + xy.1) 0 paired / n in
    let my := foldl (λ a xy, a + xy.2) 0 paired / n in
    let '(cov, vx, vy) :=
      foldl (λ '(cov, vx, vy) '(x, y),
               let dx := x - mx in
               let dy := y - my in
               (cov + dx * dy, vx + sq dx, vy + sq dy))
            (0, 0, 0) paired in
    let cov := cov / (n - 1) in
    let stdx := PrimFloat.sqrt (vx / (n - 1)) in
    let stdy := PrimFloat.sqrt (vy / (n - 1)) in
    if (stdx =? 0) || (stdy =? 0) then nan
    else cov / (stdx * stdy).

(** The [(key, num)] of the rows that [etaSquaredFromData] keeps. *)
Definition etaCells (data : list Row) (numCol catCol : string)
  : list (string * float) :=
  omap (λ row, match get row numCol with
               | VNumber num =>
                   if notMissing (get row catCol)
                   then Some (toString (get row catCol), num) else None
               | _ => None
               end) data.

Definition etaSquaredFromData (data : list Row) (numCol catCol : string)
  : float :=
  let cells := etaCells data numCol catCol in
  let groups : list (string * list float) :=
    foldl (λ groups '(key, num),
             Map_set groups key (default [] (Map_get groups key) ++ [num])%list)
          [] cells in
  let allNums := cells.*2 in
  if (length allNums <? 2)%nat || (length groups <? 2)%nat then nan
  else
    let grandMean := sum allNums / of_nat (length allNums) in
    let ssBetween :=
      foldl (λ ssBetween nums,
               let groupMean := sum nums / of_nat (length nums) in
               ssBetween + of_nat (length nums) * sq (groupMean - grandMean))
            0 (groups.*2) in
    let ssTotal := foldl (λ a x, a + sq (x - grandMean)) 0 allNums in
    if ssTotal =? 0 then nan
    else ssBetween / ssTotal.

(** The [(k1, k2)] of the rows that [cramersVFromData] counts. *)
Definition cramerCells (data : list Row) (cat1 cat2 : string)
  : list (string * string) :=
  omap (λ row,
          if notMissing (get row cat1) && notMissing (get row cat2)
          then Some (toString (get row cat1), toString (get row cat2))
          else None) data.

Definition cramersVFromData (data : list Row) (cat1 cat2 : string) : float :=
  let cells := cramerCells data cat1 cat2 in
  let contingency : list (string * list (string * nat)) :=
    foldl (λ cont '(k1, k2),
             let m := default [] (Map_get cont k1) in
             Map_set cont k1 (Map_set m k2 (default 0 (Map_get m k2) + 1)%nat))
          [] cells in
  let n := length cells in
  if (n <? 2)%nat then nan
  else
    let rows := contingency.*1 in
    let cols :=
      foldl (λ colsSet m, foldl (Set_add String.eqb) colsSet (m.*1))
            [] (contingency.*2) in
    let rowTotals : list (string * nat) :=
      foldl (λ rt '(r, m), Map_set rt r (foldl Nat.add 0%nat (m.*2)))
            [] contingency in
    let colTotals : list (string * nat) :=
      foldl (λ ct c,
               Map_set ct c
                 (foldl (λ tot m, tot + default 0 (Map_get m c))%nat
                        0%nat (contingency.*2)))
            [] cols in
    let chi2 :=
      foldl (λ chi2 r,
               foldl (λ chi2 c,
                        let o := default 0%nat
                                   (Map_get (default [] (Map_get contingency r)) c) in
                        let e := of_nat (default 0%nat (Map_get rowTotals r))
                                 * of_nat (default 0%nat (Map_get colTotals c))
                                 / of_nat n in
                        if 0 <? e then chi2 + sq (of_nat o - e) / e else chi2)
                     chi2 cols)
            0 rows in
    let minDim := Z.min (Z.of_nat (length rows) - 1) (Z.of_nat (length cols) - 1) in
    if (minDim <=? 0)%Z then nan
    else PrimFloat.sqrt (chi2 / (of_nat n * of_nat (Z.to_nat minDim))).

(** [columnStats[c]], read from what [profile] has assigned.  [profile]
    assigns an entry for every column before a reader runs (see
    [columnScan_stats]); a read of a name that was not assigned, which
    does not happen, yields an entry without statistics here. *)
Definition statOf (columnStats : gmap string ColumnStat) (c : string)
  : ColumnStat :=
  default {| present := 0; missing := 0; types := [];
             numericStats := None; categoricalStats := None |}
          (columnStats !! c).

(** The pairs [(columns[i], columns[j])] visited by
    [for (i = 0; ...) for (j = i + 1; ...)], in that order. *)
Fixpoint pairsAfter (columns : list string) : list (string * string) :=
  match columns with
  | [] => []
  | c1 :: rest => (map (pair c1) rest ++ pairsAfter rest)%list
  end.

(** The [value] computed in the body of the inner loop. *)
Definition associationValue (columnStats : gmap string ColumnStat)
    (data : list Row) (c1 c2 : string) : float :=
  let t1 := getType (statOf columnStats c1) in
  let t2 := getType (statOf columnStats c2) in
  if String.eqb t1 "numeric" && String.eqb t2 "numeric" then
    pearsonFromData data c1 c2
  else if String.eqb t1 "categorical" && String.eqb t2 "categorical" then
    cramersVFromData data c1 c2
  else if (String.eqb t1 "numeric" && String.eqb t2 "categorical")
          || (String.eqb t1 "categorical" && String.eqb t2 "numeric") then
    let numC := if String.eqb t1 "numeric" then c1 else c2 in
    let catC := if String.eqb t1 "categorical" then c1 else c2 in
    etaSquaredFromData data numC catC
  else nan.

(** [assoc[c1][c2] = value]; [assoc[c1]] is an object for every column.
    The value is a number: under the name ['__proto__'] the assignment
    does nothing. *)
Definition setCell (assoc : gmap string (gmap string float))
    (c1 c2 : string) (value : float) : gmap string (gmap string float) :=
  if String.eqb c2 "__proto__" then assoc
  else alter (insert c2 value) c1 assoc.

Definition computeAssociationMatrix (columns : list string)
    (columnStats : gmap string ColumnStat) (data : list Row)
  : gmap string (gmap string float) :=
  if (50 <? length columns)%nat then ∅
  else
    let assoc := foldl (λ assoc c, <[c := ∅]> assoc) ∅ columns in
    ownProperties
      (foldl (λ assoc '(c1, c2),
                let value := associationValue columnStats data c1 c2 in
                if negb (isNaN value)
                then setCell (setCell assoc c1 c2 value) c2 c1 value
                else assoc)
             assoc (pairsAfter columns)).

(** Equality of [Set] elements (SameValueZero). *)
Definition sameValueZero (v w : value) : bool :=
  match v, w with
  | VUndefined, VUndefined => true
  | VNull, VNull => true
  | VNumber x, VNumber y =>
      (x =? y) || (PrimFloat.is_nan x && PrimFloat.is_nan y)
  | VString s, VString t => String.eqb s t
  | VBoolean a, VBoolean b => Bool.eqb a b
  | VObject o, VObject p => Pos.eqb (obj_ref o) (obj_ref p)
  | VFunction f, VFunction g => Pos.eqb (fn_ref f) (fn_ref g)
  | _, _ => false
  end.

(** [data.map((row) => (col in row ? row[col] : undefined))
         .filter((v) => v !== undefined && v !== null)] *)
Definition nonMissingValues (data : list Row) (col : string) : list value :=
  filter (λ v, notMissing v) (map (λ row, get_in row col) data).

(** The [groups] map of the dependency test.  Only its size and the
    sizes of its sets are read, so its order is not modelled. *)
Definition fdGroups (data : list Row) (a b : string)
  : gmap string (gset string) :=
  foldl (λ groups row,
           let va := get row a in
           let vb := get row b in
           if notMissing va then
             let key := stringKey va in
             let groups :=
               if bool_decide (is_Some (groups !! key)) then groups
               else <[key := ∅]> groups in
             if notMissing vb
             then alter (λ s, s ∪ {[stringKey vb]}) key groups
             else groups
           else groups)
        ∅ data.

(** [isFD] after the loop over [groups.values()]. *)
Definition isFD (groups : gmap string (gset string)) : bool :=
  forallb (λ s, negb (1 <? size s)%nat) (map_to_list groups).*2.

(** The pair [(colValues, uniqueCols)] after the first loop, which sets
    [colValues[col]] for every column (see [keyScan_values]). *)
Definition keyScan (columns : list string) (data : list Row) (rowCount : nat)
  : gmap string (list value) * list string :=
  foldl (λ st col,
           let nonMissing := nonMissingValues data col in
           (<[col := nonMissing]> st.1,
            if (length nonMissing =? rowCount)%nat
               && (length (Set_from sameValueZero nonMissing) =? rowCount)%nat
            then (st.2 ++ [col])%list else st.2))
        (∅, []) columns.

Definition computeKeysAndDeps (columns : list string) (data : list Row)
    (rowCount : nat) : KeysAndDependencies :=
  if (20 <? length columns)%nat then
    {| candidatePrimaryKeys := []; functionalDependencies := [] |}
  else
    let colValues := (keyScan columns data rowCount).1 in
    let uniqueCols := (keyScan columns data rowCount).2 in
    let candidatePrimaryKeys := map (λ col, [col]) uniqueCols in
    let indexed := imap pair columns in
    let functionalDependencies :=
      '(i, a) ← indexed;
      if (length (default [] (colValues !! a)) <? 2)%nat then []
      else
        '(j, b) ← indexed;
        if (i =? j)%nat then []
        else if existsb (String.eqb a) uniqueCols then []
        else
          let groups := fdGroups data a b in
          if isFD groups && (1 <? size groups)%nat
          then [ {| from := [a]; to := b |} ]
          else [] in
    {| candidatePrimaryKeys := candidatePrimaryKeys;
       functionalDependencies := functionalDependencies |}.

(** [c in row && row[c] !== undefined && row[c] !== null] *)
Definition presentIn (c : string) (row : Row) : bool :=
  has_key c row && notMissing (get row c).

Definition computeMissingPatterns (columns : list string) (data : list Row)
    (rowCount : nat) : MissingnessPatterns :=
  let perColumnRates :=
    ownProperties
      (foldl (λ rates c,
                let missing :=
                  of_nat rowCount
                  - of_nat (length (filter (λ row, presentIn c row) data)) in
                <[c := missing / of_nat rowCount]> rates)
             ∅ columns) in
  let topCoMissingPairs :=
    if (length columns <=? 50)%nat then
      let pairCounts :=
        omap (λ '(c1, c2),
                let count :=
                  length (filter (λ row, negb (presentIn c1 row)
                                         && negb (presentIn c2 row)) data) in
                if (0 <? count)%nat then Some ((c1, c2), count) else None)
             (pairsAfter columns) in
      take 10 (Array_sort (λ a b, (b.2 <? a.2)%nat) pairCounts)
    else [] in
  {| perColumnRates := perColumnRates;
     topCoMissingPairs := topCoMissingPairs |}.

Definition computeCatEntropy (columns : list string)
    (columnStats : gmap string ColumnStat) (data : list Row)
  : gmap string CatEntropy :=
  ownProperties (foldl (λ categoricalEntropy col,
           match categoricalStats (statOf columnStats col) with
           | None => categoricalEntropy
           | Some catStat =>
               let cats :=
                 map toString
                     (filter (λ v, notMissing v)
                             (map (λ row, get row col) data)) in
               let freq := frequencies cats in
               let total := of_nat (length cats) in
               let entropy :=
                 foldl (λ entropy count,
                          let p := of_nat count / total in
                          entropy - p * Math_log2 p)
                       0 (freq.*2) in
               let top10Values := (CategoricalStats.top10 catStat).*1 in
               let tailCount :=
                 foldl (λ tailCount vc,
                          if negb (existsb (String.eqb vc.1) top10Values)
                          then (tailCount + vc.2)%nat else tailCount)
                       0%nat freq in
               <[col := {| entropy := entropy;
                           tailShareOutsideTop10 := of_nat tailCount / total |}]>
                 categoricalEntropy
           end)
        ∅ columns).

(** The cast [as number[]] has no effect at run time; where the source
    casts, every element is a number (see [nonMissing_numbers]). *)
Definition asNumber (v : value) : float :=
  match v with VNumber x => x | _ => nan end.

Definition computeOutliers (columns : list string)
    (columnStats : gmap string ColumnStat)
    (colValues : gmap string (list value)) : gmap string Outliers :=
  ownProperties (foldl (λ outliers col,
           match numericStats (statOf columnStats col) with
           | None => outliers
           | Some stat =>
               let nums := map asNumber (default [] (colValues !! col)) in
               let q1 := (NumericStats.quartiles stat).1.1 in
               let q3 := (NumericStats.quartiles stat).2 in
               let iqr := q3 - q1 in
               let lowerFence := q1 - 1.5 * iqr in
               let upperFence := q3 + 1.5 * iqr in
               let counts :=
                 foldl (λ counts x,
                          ((if (x <? lowerFence) || (upperFence <? x)
                            then S counts.1 else counts.1),
                           (if (0 <? NumericStats.stddev stat)
                               && (3 <? PrimFloat.abs
                                          ((x - NumericStats.mean stat)
                                           / NumericStats.stddev stat))
                            then S counts.2 else counts.2)))
                       (0%nat, 0%nat) nums in
               <[col := {| tukeyCount := counts.1;
                           zscoreCount := counts.2 |}]> outliers
           end)
        ∅ columns).

(** ** [profile] *)

(** [Array.from(allKeys)] after the scan of the rows. *)
Definition allKeys (data : list Row) : list string :=
  foldl (λ keys row, foldl (Set_add String.eqb) keys (Object_keys row))
        [] data.

(** The projection of a row in [sampleRows]. *)
Definition sampleRow (columns : list string) (row : Row) : Row :=
  ownProperties
    (foldl (λ newRow col,
              <[col := if has_key col row
                          && (if get row col is VUndefined then false else true)
                       then get row col else VNull]> newRow)
           ∅ columns).

(** The entry stored in [columnStats[col]].  The values present are
    among the [rowCount] cells of the column (see [present_le_rowCount]),
    so [rowCount - present] is a subtraction of natural numbers. *)
Definition columnStat (data : list Row) (rowCount : nat) (col : string)
  : ColumnStat :=
  let nonMissing := nonMissingValues data col in
  let present := length nonMissing in
  let missing := (rowCount - present)%nat in
  let types := Set_from String.eqb (map typeof nonMissing) in
  let numericStats :=
    if (length types =? 1)%nat
       && String.eqb (default "undefined" (types !! 0%nat)) "number"
       && (0 <? length nonMissing)%nat
    then computeNumericStats (map asNumber nonMissing) else None in
  let categoricalStats :=
    if (length types =? 1)%nat
       && (String.eqb (default "undefined" (types !! 0%nat)) "string"
           || String.eqb (default "undefined" (types !! 0%nat)) "boolean")
       && (0 <? length nonMissing)%nat
    then computeCategoricalStats (map toString nonMissing) else None in
  {| present := present; missing := missing; types := types;
     numericStats := numericStats; categoricalStats := categoricalStats |}.

(** The pair [(columnStats, colValues)] after the loop over the columns,
    as written: the loop assigns both entries for every column (see
    [columnScan_stats] and [columnScan_values]). *)
Definition columnScan (columns : list string) (data : list Row)
    (rowCount : nat) : gmap string ColumnStat * gmap string (list value) :=
  foldl (λ st col,
           (<[col := columnStat data rowCount col]> st.1,
            <[col := nonMissingValues data col]> st.2))
        (∅, ∅) columns.

Definition profile (data : list Row) (options : ProfileOptions.t)
  : ProfileSummary :=
  let rowCount := length data in
  if (rowCount =? 0)%nat then
    {| rowCount := 0; columns := []; sampleRows := []; columnStats := ∅;
       associationMatrix := None; keysAndDependencies := None;
       missingnessPatterns := None; outliers := None;
       categoricalEntropy := None |}
  else
    let columns := Array_sort String.ltb (allKeys data) in
    let sampleSize := Nat.min 5 rowCount in
    let sampleRows := map (sampleRow columns) (take sampleSize data) in
    let columnStats := (columnScan columns data rowCount).1 in
    let colValues := (columnScan columns data rowCount).2 in
    {| rowCount := rowCount;
       columns := columns;
       columnStats := ownProperties columnStats;
       sampleRows := sampleRows;
       associationMatrix :=
         if ProfileOptions.associationMatrix options
         then Some (computeAssociationMatrix columns columnStats data)
         else None;
       keysAndDependencies :=
         if ProfileOptions.keysDependencies options
         then Some (computeKeysAndDeps columns data rowCount)
         else None;
       missingnessPatterns :=
         if ProfileOptions.missingnessPatterns options
         then Some (computeMissingPatterns columns data rowCount)
         else None;
       outliers :=
         if ProfileOptions.outliers options
         then Some (computeOutliers columns columnStats colValues)
         else None;
       categoricalEntropy :=
         if ProfileOptions.categoricalEntropy options
         then Some (computeCatEntropy columns columnStats data)
         else None |}.
End Host.

(** ** Notions used to state the properties *)

(** The column list computed by [profile] for a non-empty table. *)
Definition columnsOf (data : list Row) : list string :=
  Array_sort String.ltb (allKeys data).

(** The cell [assoc[c1][c2]] of an association matrix, if there is one. *)
Definition cell (assoc : gmap string (gmap string float)) (c1 c2 : string)
  : option float :=
  inner ← assoc !! c1; inner !! c2.

(** The value that the loop of [computeAssociationMatrix] computes for
    two columns, whichever is named first: it calls [associationValue]
    with the column that comes first in the column list as [c1]. *)
Definition pairStatistic `{Builtins} (columnStats : gmap string ColumnStat)
    (data : list Row) (c1 c2 : string) : float :=
  if String.ltb c1 c2 then associationValue columnStats data c1 c2
  else associationValue columnStats data c2 c1.

(** The number of occurrences of [v] in [cats]. *)
Definition occurrences (v : string) (cats : list string) : nat :=
  length (filter (λ c, c = v) cats).

(** The number of rows in which the columns [c1] and [c2] are both
    missing. *)
Definition coMissing (data : list Row) (c1 c2 : string) : nat :=
  length (filter (λ row, negb (presentIn c1 row) && negb (presentIn c2 row))
                 data).

(** ** Concrete tables

    The tables of the repository's tests that the properties below are
    run on, and the inputs on which the code departs from its description. *)

(** An object literal [{ k1: v1, ... }]. *)
Definition record (fields : list (string * value)) : Row := list_to_map fields.

(** An instance of the host built-ins to run the model with.  The
    properties are proved for every instance; this one only serves to
    evaluate the model on tables that make no use of the built-ins. *)
Definition exampleHost : Builtins :=
  {| Number_toString := λ _, "0"; Math_log2 := λ x, x;
     Array_sort_inconsistent := λ nums, nums;
     Array_sort_inconsistent_Permutation := λ nums, Permutation_refl nums |}.

Definition noOptions : ProfileOptions.t :=
  ProfileOptions.mk false false false false false.

Definition allOptions : ProfileOptions.t :=
  ProfileOptions.mk true true true true true.

(** The table of the test 'basic profiling'. *)
Definition basicTable : list Row :=
  [ record [("id", VNumber 1); ("name", VString "Alice");
            ("age", VNumber 30); ("gender", VBoolean true)];
    record [("id", VNumber 2); ("name", VString "Bob");
            ("age", VNumber 25); ("gender", VBoolean false)];
    record [("id", VNumber 3); ("name", VString "Charlie");
            ("age", VNumber 35)] ].

(** The table of the test 'association matrix'. *)
Definition associationTable : list Row :=
  [ record [("num1", VNumber 1); ("num2", VNumber 2);
            ("cat1", VString "A"); ("cat2", VString "X")];
    record [("num1", VNumber 2); ("num2", VNumber 4);
            ("cat1", VString "B"); ("cat2", VString "Y")];
    record [("num1", VNumber 3); ("num2", VNumber 6);
            ("cat1", VString "B"); ("cat2", VString "X")] ].


(** The string columns of the table of the test 'keys and dependencies
    with no unique columns': column [a] is constant. *)
Definition constantTable : list Row :=
  [ record [("a", VString "x"); ("b", VString "y")];
    record [("a", VString "x"); ("b", VString "y")] ].

(** Tables in the manner of the test 'performance caps': [n] rows, the
    [i]-th with a single column of its own. *)
Definition wideTable (n : nat) : list Row :=
  map (λ i, record [(String (Ascii.ascii_of_nat (33 + i)) "",
                     VNumber (Number.of_nat i))])
      (seq 0 n).

(** The table of the test 'numeric stats with special values'. *)
Definition specialValuesTable : list Row :=
  map (λ x, record [("value", VNumber x)])
      [1; 2; 3; nan; infinity; neg_infinity]%float.

(** A column that holds nothing but NaN. *)
Definition nanTable : list Row := [ record [("value", VNumber nan)] ].

(** Two numeric columns, linearly related on the rows that are finite. *)
Definition infinityTable : list Row :=
  [ record [("a", VNumber 1); ("b", VNumber 2)];
    record [("a", VNumber 2); ("b", VNumber 4)];
    record [("a", VNumber infinity); ("b", VNumber 6)] ].

(** A constant column whose value is the least positive number,
    [Number.MIN_VALUE]. *)
Definition tinyConstantTable : list Row :=
  map (λ x, record [("v", VNumber x)])
      [0x1p-1074; 0x1p-1074; 0x1p-1074]%float.

(** A column that is constant and a column that varies, after the table
    of the test 'association matrix with constant variables', with the
    constant 0.1 (the double [0x1.999999999999ap-4]) in the place of 5. *)
Definition constantNumberTable : list Row :=
  [ record [("constant", VNumber 0x1.999999999999ap-4); ("varying", VNumber 1)];
    record [("constant", VNumber 0x1.999999999999ap-4); ("varying", VNumber 2)];
    record [("constant", VNumber 0x1.999999999999ap-4); ("varying", VNumber 3)] ].

(** Two columns that are equal row by row, with the values 1e200 and
    -1e200 (the doubles [0x1.4e718d7d7625ap+664] and its opposite), whose
    squares are not representable. *)
Definition hugeTable : list Row :=
  [ record [("x", VNumber 0x1.4e718d7d7625ap+664);
            ("y", VNumber 0x1.4e718d7d7625ap+664)];
    record [("x", VNumber (-0x1.4e718d7d7625ap+664));
            ("y", VNumber (-0x1.4e718d7d7625ap+664))] ].

(** A column named like a member of [Object.prototype], which the second
    record does not have. *)
Definition constructorTable : list Row :=
  [ record [("constructor", VNumber 1)];
    record [("a", VNumber 2)] ].

(** The determinant [constructor] has the single value ["x"] in the
    records that have the property; the third record lacks it. *)
Definition inheritedGroupTable : list Row :=
  [ record [("constructor", VString "x"); ("b", VString "1")];
    record [("constructor", VString "x"); ("b", VString "1")];
    record [("b", VString "1")] ].


(** The table of the test 'missingness patterns'. *)
Definition missingTable : list Row :=
  [ record [("a", VNumber 1); ("b", VNumber 2)];
    record [("a", VNull); ("c", VNumber 3)];
    record [("b", VNull); ("c", VNull)] ].

(** A record with a property of its own named ['__proto__'], as
    [JSON.parse] gives for such a key. *)
Definition protoTable : list Row :=
  [ record [("__proto__", VNumber 1); ("a", VNumber 2)];
    record [("__proto__", VNumber 3); ("a", VNumber 5)] ].

(** * Properties *)

Local Open Scope nat_scope.

(** ** Sets of strings, keys and sorting *)

Lemma Set_has_string (s : list string) (x : string) :
  Set_has String.eqb s x = true ↔ x ∈ s.
Proof.
  unfold Set_has. rewrite existsb_exists. split.
  - intros (y & Hy & Heq). apply String.eqb_eq in Heq as ->.
    by apply list_elem_of_In.
  - intros Hx. exists x. split; [by apply list_elem_of_In|].
    apply String.eqb_refl.
Qed.

Lemma elem_of_Set_add (s : list string) (x y : string) :
  y ∈ Set_add String.eqb s x ↔ y ∈ s ∨ y = x.
Proof.
  unfold Set_add. destruct (Set_has String.eqb s x) eqn:Hhas.
  - apply Set_has_string in Hhas. split; [auto|]. by intros [?| ->].
  - rewrite elem_of_app, list_elem_of_singleton. tauto.
Qed.

Lemma NoDup_Set_add (s : list string) (x : string) :
  NoDup s → NoDup (Set_add String.eqb s x).
Proof.
  intros Hs. unfold Set_add. destruct (Set_has String.eqb s x) eqn:Hhas; [done|].
  apply NoDup_app. split_and!; [done| |apply NoDup_singleton].
  intros y Hy ->%list_elem_of_singleton.
  apply Set_has_string in Hy. congruence.
Qed.

Lemma elem_of_Set_add_all (l s : list string) (y : string) :
  y ∈ foldl (Set_add String.eqb) s l ↔ y ∈ s ∨ y ∈ l.
Proof.
  revert s. induction l as [|x l IH]; intros s; simpl.
  - rewrite elem_of_nil. tauto.
  - rewrite IH, elem_of_Set_add, elem_of_cons. tauto.
Qed.

Lemma NoDup_Set_add_all (l s : list string) :
  NoDup s → NoDup (foldl (Set_add String.eqb) s l).
Proof.
  revert s. induction l as [|x l IH]; intros s Hs; simpl; [done|].
  by apply IH, NoDup_Set_add.
Qed.

Lemma elem_of_Object_keys (row : Row) (k : string) :
  k ∈ Object_keys row ↔ is_Some (row !! k).
Proof.
  unfold Object_keys. rewrite list_elem_of_fmap. split.
  - intros ([k' v] & -> & Hin). apply elem_of_map_to_list in Hin. by exists v.
  - intros [v Hv]. exists (k, v). split; [done|]. by apply elem_of_map_to_list.
Qed.

Lemma elem_of_allKeys (data : list Row) (k : string) :
  k ∈ allKeys data ↔ ∃ row, row ∈ data ∧ is_Some (row !! k).
Proof.
  unfold allKeys.
  assert (∀ s, k ∈ foldl (λ keys row,
                 foldl (Set_add String.eqb) keys (Object_keys row)) s data
               ↔ k ∈ s ∨ ∃ row, row ∈ data ∧ is_Some (row !! k)) as Hgen.
  { induction data as [|row data IH]; intros s; simpl.
    - split; [auto|]. intros [?|(row & Hrow & _)]; [done|].
      by apply elem_of_nil in Hrow.
    - rewrite IH, elem_of_Set_add_all, elem_of_Object_keys. split.
      + intros [[?|?]|(r & ? & ?)]; [by left|right..].
        * exists row. split; [left|done].
        * exists r. split; [by right|done].
      + intros [?|(r & [->|?]%elem_of_cons & ?)]; [by left; left| |].
        * by left; right.
        * right. by exists r. }
  rewrite Hgen, elem_of_nil. tauto.
Qed.

Lemma NoDup_allKeys (data : list Row) : NoDup (allKeys data).
Proof.
  unfold allKeys. generalize (NoDup_nil_2 (A:=string)).
  generalize (@nil string). induction data as [|row data IH]; intros s Hs; simpl.
  - done.
  - by apply IH, NoDup_Set_add_all.
Qed.

Section SortFacts.
Context {A : Type} (before : A → A → bool).

Lemma sort_insert_Permutation (x : A) (l : list A) :
  sort_insert before x l ≡ₚ x :: l.
Proof.
  induction l as [|y l IH]; simpl; [done|].
  destruct (before x y); [done|]. rewrite IH. apply perm_swap.
Qed.

Lemma Array_sort_Permutation (l : list A) : Array_sort before l ≡ₚ l.
Proof.
  unfold Array_sort.
  assert (∀ acc, foldl (λ acc x, sort_insert before x acc) acc l ≡ₚ acc ++ l)
    as Hgen.
  { induction l as [|x l IH]; intros acc; simpl.
    - by rewrite app_nil_r.
    - rewrite IH, sort_insert_Permutation.
      by rewrite (Permutation_middle acc l x). }
  by rewrite Hgen.
Qed.
End SortFacts.

Lemma String_ltb_le (x y : string) : String.ltb x y = true → String.le x y.
Proof.
  unfold String.le, String.ltb, String.leb.
  by destruct (String.compare x y).
Qed.

Lemma String_not_ltb_le (x y : string) : String.ltb x y = false → String.le y x.
Proof.
  unfold String.le, String.ltb, String.leb.
  rewrite (String.compare_antisym x y).
  by destruct (String.compare y x).
Qed.

Lemma sort_insert_sorted (x : string) (l : list string) :
  StronglySorted String.le l →
  StronglySorted String.le (sort_insert String.ltb x l).
Proof.
  induction 1 as [|y l Hl IH Hy]; simpl.
  - repeat constructor.
  - destruct (String.ltb x y) eqn:Hxy.
    + apply String_ltb_le in Hxy. constructor; [by constructor|].
      constructor; [done|].
      eapply Forall_impl; [exact Hy|]. intros z Hz. by etrans.
    + apply String_not_ltb_le in Hxy. constructor; [done|].
      rewrite (sort_insert_Permutation String.ltb x l). by constructor.
Qed.

Lemma Array_sort_sorted (l : list string) :
  StronglySorted String.le (Array_sort String.ltb l).
Proof.
  unfold Array_sort.
  assert (∀ acc, StronglySorted String.le acc →
            StronglySorted String.le
              (foldl (λ acc x, sort_insert String.ltb x acc) acc l)) as Hgen.
  { induction l as [|x l IH]; intros acc Hacc; simpl; [done|].
    by apply IH, sort_insert_sorted. }
  apply Hgen. constructor.
Qed.

Lemma elem_of_columnsOf (data : list Row) (k : string) :
  k ∈ columnsOf data ↔ ∃ row, row ∈ data ∧ is_Some (row !! k).
Proof.
  unfold columnsOf. rewrite (Array_sort_Permutation String.ltb (allKeys data)).
  apply elem_of_allKeys.
Qed.

Lemma NoDup_columnsOf (data : list Row) : NoDup (columnsOf data).
Proof.
  unfold columnsOf. rewrite (Array_sort_Permutation String.ltb (allKeys data)).
  apply NoDup_allKeys.
Qed.

Lemma sorted_columnsOf (data : list Row) :
  StronglySorted String.le (columnsOf data).
Proof. apply Array_sort_sorted. Qed.

Lemma columnsOf_nil : columnsOf [] = [].
Proof. reflexivity. Qed.

(** ** Dictionaries filled in a loop over the columns *)

Lemma lookup_ownProperties {V : Type} (written : gmap string V) (k : string) :
  ownProperties written !! k
  = if decide (k = "__proto__") then None else written !! k.
Proof.
  unfold ownProperties. case_decide as Hk.
  - subst k. apply lookup_delete_eq.
  - by apply lookup_delete_ne.
Qed.

Lemma ownProperties_empty {V : Type} : ownProperties (∅ : gmap string V) = ∅.
Proof. apply delete_empty. Qed.

Lemma lookup_foldl_insert {V : Type} (f : string → V) (l : list string)
    (m : gmap string V) (k : string) :
  foldl (λ m c, <[c := f c]> m) m l !! k
  = if decide (k ∈ l) then Some (f k) else m !! k.
Proof.
  revert m. induction l as [|c l IH]; intros m; simpl; [done|].
  rewrite IH. destruct (decide (k ∈ l)) as [Hin|Hnin].
  - rewrite decide_True; [done|by right].
  - destruct (decide (k = c)) as [->|Hne].
    + rewrite decide_True by left. by rewrite lookup_insert_eq.
    + rewrite decide_False by (by intros [?|?]%elem_of_cons).
      by rewrite lookup_insert_ne.
Qed.

Lemma foldl_pair_fst {A B C : Type} (f : A → C → A) (g : B → C → B)
    (l : list C) (st : A * B) :
  (foldl (λ st c, (f st.1 c, g st.2 c)) st l).1 = foldl f st.1 l.
Proof. revert st. induction l as [|c l IH]; intros st; simpl; [done|]. by rewrite IH. Qed.

Lemma foldl_pair_snd {A B C : Type} (f : A → C → A) (g : B → C → B)
    (l : list C) (st : A * B) :
  (foldl (λ st c, (f st.1 c, g st.2 c)) st l).2 = foldl g st.2 l.
Proof. revert st. induction l as [|c l IH]; intros st; simpl; [done|]. by rewrite IH. Qed.

(** ** The summary of a table *)

Section Summary.
Context `{Builtins}.

(** What [profile] returns for a table with at least one row. *)
Lemma profile_nonempty (data : list Row) (options : ProfileOptions.t) :
  data ≠ [] →
  profile data options =
  let columns := columnsOf data in
  let columnStats := (columnScan columns data (length data)).1 in
  let colValues := (columnScan columns data (length data)).2 in
  {| rowCount := length data;
     columns := columns;
     columnStats := ownProperties columnStats;
     sampleRows := map (sampleRow columns) (take (Nat.min 5 (length data)) data);
     associationMatrix :=
       if ProfileOptions.associationMatrix options
       then Some (computeAssociationMatrix columns columnStats data)
       else None;
     keysAndDependencies :=
       if ProfileOptions.keysDependencies options
       then Some (computeKeysAndDeps columns data (length data))
       else None;
     missingnessPatterns :=
       if ProfileOptions.missingnessPatterns options
       then Some (computeMissingPatterns columns data (length data))
       else None;
     outliers :=
       if ProfileOptions.outliers options
       then Some (computeOutliers columns columnStats colValues)
       else None;
     categoricalEntropy :=
       if ProfileOptions.categoricalEntropy options
       then Some (computeCatEntropy columns columnStats data)
       else None |}.
Proof. by destruct data. Qed.

Lemma profile_columns (data : list Row) (options : ProfileOptions.t) :
  columns (profile data options) = columnsOf data.
Proof.
  destruct data as [|row data]; [done|]. by rewrite profile_nonempty.
Qed.

(** C10: for the empty table and any options, [profile] returns row count
    0, no columns, no column statistics and no sample rows, and the result
    has none of the optional fields. *)
Theorem profile_empty_table (data : list Row) (options : ProfileOptions.t) :
  length data = 0 →
  profile data options =
  {| rowCount := 0; columns := []; columnStats := ∅; sampleRows := [];
     associationMatrix := None; keysAndDependencies := None;
     missingnessPatterns := None; outliers := None;
     categoricalEntropy := None |}.
Proof.
  intros Hlen. unfold profile. by apply Nat.eqb_eq in Hlen as ->.
Qed.

(** C3: the row count is the number of input records, and the column list
    is the sorted list without repetition of the keys that occur in some
    record; it is the only list of that description. *)
Theorem profile_rowCount_columns (data : list Row) (options : ProfileOptions.t) :
  let r := profile data options in
  rowCount r = length data
  ∧ StronglySorted String.le (columns r)
  ∧ NoDup (columns r)
  ∧ (∀ k, k ∈ columns r ↔ ∃ row, row ∈ data ∧ is_Some (row !! k))
  ∧ (∀ l, StronglySorted String.le l → NoDup l →
          (∀ k, k ∈ l ↔ ∃ row, row ∈ data ∧ is_Some (row !! k)) →
          l = columns r).
Proof.
  cbv zeta. rewrite profile_columns. split_and!.
  - by destruct data.
  - apply sorted_columnsOf.
  - apply NoDup_columnsOf.
  - apply elem_of_columnsOf.
  - intros l Hsorted Hnodup Hl.
    apply (StronglySorted_unique String.le); [done|apply sorted_columnsOf|].
    apply NoDup_Permutation; [done|apply NoDup_columnsOf|].
    intros k. by rewrite Hl, elem_of_columnsOf.
Qed.

(** The three caps, for any number of columns above the limit. *)
Lemma association_cap (data : list Row) (options : ProfileOptions.t) :
  ProfileOptions.associationMatrix options = true →
  50 < length (columns (profile data options)) →
  associationMatrix (profile data options) = Some ∅.
Proof.
  intros Hopt. rewrite profile_columns. intros Hlen.
  rewrite profile_nonempty by (intros ->; simpl in Hlen; lia).
  cbv zeta. simpl. rewrite Hopt. unfold computeAssociationMatrix.
  by apply Nat.ltb_lt in Hlen as ->.
Qed.

Lemma keys_cap (data : list Row) (options : ProfileOptions.t) :
  ProfileOptions.keysDependencies options = true →
  20 < length (columns (profile data options)) →
  keysAndDependencies (profile data options) =
  Some {| candidatePrimaryKeys := []; functionalDependencies := [] |}.
Proof.
  intros Hopt. rewrite profile_columns. intros Hlen.
  rewrite profile_nonempty by (intros ->; simpl in Hlen; lia).
  cbv zeta. simpl. rewrite Hopt. unfold computeKeysAndDeps.
  by apply Nat.ltb_lt in Hlen as ->.
Qed.

Lemma missingness_cap (data : list Row) (options : ProfileOptions.t) :
  ProfileOptions.missingnessPatterns options = true →
  50 < length (columns (profile data options)) →
  topCoMissingPairs <$> missingnessPatterns (profile data options) = Some [].
Proof.
  intros Hopt. rewrite profile_columns. intros Hlen.
  rewrite profile_nonempty by (intros ->; simpl in Hlen; lia).
  cbv zeta. simpl. rewrite Hopt. simpl.
  by apply Nat.leb_gt in Hlen as ->.
Qed.

(** C7: with the options on, a table of 60 columns has an empty
    association matrix and empty lists of candidate keys and of
    dependencies, and a table of 51 columns has an empty list of co-missing
    pairs; each field is there, holding the empty structure. *)
Theorem performance_caps (table60 table51 : list Row)
    (options : ProfileOptions.t) :
  ProfileOptions.associationMatrix options = true →
  ProfileOptions.keysDependencies options = true →
  ProfileOptions.missingnessPatterns options = true →
  length (columns (profile table60 options)) = 60 →
  length (columns (profile table51 options)) = 51 →
  associationMatrix (profile table60 options) = Some ∅
  ∧ keysAndDependencies (profile table60 options) =
    Some {| candidatePrimaryKeys := []; functionalDependencies := [] |}
  ∧ topCoMissingPairs <$> missingnessPatterns (profile table51 options)
    = Some [].
Proof.
  intros Ha Hk Hm H60 H51. split_and!.
  - apply association_cap; [done|lia].
  - apply keys_cap; [done|lia].
  - apply missingness_cap; [done|lia].
Qed.

(** The entries of [columnStats] and [colValues] after the loop. *)
Lemma columnScan_stats (cols : list string) (data : list Row) (n : nat)
    (col : string) :
  (columnScan cols data n).1 !! col
  = if decide (col ∈ cols) then Some (columnStat data n col) else None.
Proof.
  unfold columnScan.
  rewrite (foldl_pair_fst
             (λ m c, <[c := columnStat data n c]> m)
             (λ m c, <[c := nonMissingValues data c]> m)).
  by rewrite lookup_foldl_insert.
Qed.

Lemma columnScan_values (cols : list string) (data : list Row) (n : nat)
    (col : string) :
  (columnScan cols data n).2 !! col
  = if decide (col ∈ cols) then Some (nonMissingValues data col) else None.
Proof.
  unfold columnScan.
  rewrite (foldl_pair_snd
             (λ m c, <[c := columnStat data n c]> m)
             (λ m c, <[c := nonMissingValues data c]> m)).
  by rewrite lookup_foldl_insert.
Qed.

(** The properties of the [columnStats] of the summary: one for every
    column, but for a column named ['__proto__']. *)
Lemma columnStats_lookup (data : list Row) (options : ProfileOptions.t)
    (col : string) :
  columnStats (profile data options) !! col
  = if decide (col ∈ columns (profile data options) ∧ col ≠ "__proto__")
    then Some (columnStat data (length data) col) else None.
Proof.
  destruct data as [|row data].
  - change (columns (profile [] options)) with (@nil string).
    change (columnStats (profile [] options)) with (∅ : gmap string ColumnStat).
    rewrite lookup_empty, decide_False; [done|]. by intros [?%elem_of_nil _].
  - rewrite profile_nonempty by done. cbv zeta. cbn [columnStats columns].
    rewrite lookup_ownProperties, columnScan_stats.
    destruct (decide (col = "__proto__")) as [->|Hne].
    + by rewrite decide_False by (by intros [_ ?]).
    + destruct (decide (col ∈ columnsOf (row :: data))) as [Hin|Hnin].
      * by rewrite decide_True.
      * by rewrite decide_False by (by intros [? _]).
Qed.

(** Every column has its entry where the optional components read
    [columnStats[c]]: the reads never meet a name that was not assigned. *)
Lemma statOf_column (cols : list string) (data : list Row) (n : nat)
    (col : string) :
  col ∈ cols →
  statOf (columnScan cols data n).1 col = columnStat data n col.
Proof.
  intros Hcol. unfold statOf. rewrite columnScan_stats.
  by rewrite decide_True.
Qed.

(** The entry of a column in the summary is the one that the optional
    components read. *)
Lemma statOf_ownProperties (columnStats : gmap string ColumnStat)
    (col : string) :
  col ≠ "__proto__" →
  statOf (ownProperties columnStats) col = statOf columnStats col.
Proof.
  intros Hne. unfold statOf. rewrite lookup_ownProperties.
  by rewrite decide_False.
Qed.

(** *** Sample rows *)

(** The test [col in row] changes nothing: where it fails, the read
    gives [undefined]. *)
Lemma get_in_get (row : Row) (col : string) : get_in row col = get row col.
Proof.
  unfold get_in, has_key, get.
  destruct (row !! col) as [v|] eqn:Hown.
  - by rewrite bool_decide_true by eauto.
  - rewrite bool_decide_false by (by intros [? ?]). simpl.
    destruct (inherited col) as [v|] eqn:Hproto.
    + by rewrite bool_decide_true by eauto.
    + by rewrite bool_decide_false by (by intros [? ?]).
Qed.

Lemma sampleRow_lookup (cols : list string) (row : Row) (col : string) :
  sampleRow cols row !! col
  = if decide (col ∈ cols ∧ col ≠ "__proto__")
    then Some (if notMissing (get row col) then get row col else VNull)
    else None.
Proof.
  unfold sampleRow.
  rewrite lookup_ownProperties,
    (lookup_foldl_insert
       (λ col, if has_key col row
                  && (if get row col is VUndefined then false else true)
               then get row col else VNull)).
  destruct (decide (col = "__proto__")) as [->|Hne].
  { by rewrite decide_False by (by intros [_ ?]). }
  destruct (decide (col ∈ cols)) as [Hin|Hnin].
  - rewrite decide_True by done. f_equal.
    pose proof (get_in_get row col) as Hget. unfold get_in in Hget.
    destruct (has_key col row); simpl.
    + by destruct (get row col).
    + rewrite <-Hget. done.
  - by rewrite decide_False by (by intros [? _]).
Qed.

(** There are [min(5, rowCount)] sample rows; they come from the first
    rows of the input, in order; each has the columns of the table as
    properties, but for a column named ['__proto__'], with what the read
    [row[col]] gives, be it a property of the record or a member of
    [Object.prototype], and [null] where that is [undefined] or [null]. *)
Lemma sampleRows_cells (data : list Row) (options : ProfileOptions.t) :
  let r := profile data options in
  length (sampleRows r) = Nat.min 5 (rowCount r)
  ∧ (∀ i, sampleRows r !! i
          = if decide (i < 5) then sampleRow (columns r) <$> data !! i
            else None)
  ∧ (∀ row col,
       sampleRow (columns r) row !! col
       = if decide (col ∈ columns r ∧ col ≠ "__proto__")
         then Some (if notMissing (get row col) then get row col else VNull)
         else None).
Proof.
  cbv zeta. split_and!.
  - destruct data as [|row data]; [done|].
    rewrite profile_nonempty by done. cbv zeta. cbn [sampleRows rowCount].
    rewrite length_map, length_take. lia.
  - intros i. destruct data as [|row data].
    + simpl. by destruct (decide (i < 5)).
    + rewrite profile_nonempty by done. cbv zeta. cbn [sampleRows columns].
      rewrite list_lookup_fmap, lookup_take.
      destruct (decide (i < 5)) as [Hi|Hi];
        destruct (decide (i < 5 `min` length (row :: data))) as [Hlt|Hge];
        try done; try lia.
      rewrite (lookup_ge_None_2 (row :: data) i); [done|lia].
  - intros row col. apply sampleRow_lookup.
Qed.

(** *** Column statistics *)

Lemma elem_of_Set_from (l : list string) (x : string) :
  x ∈ Set_from String.eqb l ↔ x ∈ l.
Proof.
  unfold Set_from. rewrite elem_of_Set_add_all, elem_of_nil. tauto.
Qed.

Lemma singleton_kind (kinds : list string) (kind : string) :
  (length kinds =? 1)%nat
  && String.eqb (default "undefined" (kinds !! 0%nat)) kind = true →
  kinds = [kind].
Proof.
  intros [Hlen Hkind]%andb_prop.
  apply Nat.eqb_eq in Hlen. apply String.eqb_eq in Hkind.
  destruct kinds as [|k [|? ?]]; simplify_eq/=. done.
Qed.

(** Where the source casts [nonMissing as number[]], the values are
    numbers. *)
Lemma nonMissing_numbers (data : list Row) (col : string) :
  Set_from String.eqb (map typeof (nonMissingValues data col)) = ["number"] →
  Forall (λ v, ∃ x, v = VNumber x) (nonMissingValues data col).
Proof.
  intros Htypes. apply Forall_forall. intros v Hv.
  assert (typeof v ∈ Set_from String.eqb (map typeof (nonMissingValues data col)))
    as Hin by (apply elem_of_Set_from, list_elem_of_fmap; eauto).
  rewrite Htypes in Hin. apply list_elem_of_singleton in Hin.
  destruct v; simplify_eq/=. eauto.
Qed.

Lemma computeNumericStats_is_Some (nums : list float) :
  is_Some (computeNumericStats nums) ↔ nums ≠ [].
Proof.
  unfold computeNumericStats. destruct nums as [|x nums]; simpl.
  - split; [by intros [? ?]|done].
  - split; [done|eauto].
Qed.

Lemma present_le_rowCount (data : list Row) (col : string) :
  length (nonMissingValues data col) ≤ length data.
Proof.
  unfold nonMissingValues.
  etrans; [apply length_filter|]. by rewrite length_map.
Qed.

Lemma columnStat_numeric (data : list Row) (n : nat) (col : string) :
  is_Some (numericStats (columnStat data n col)) →
  types (columnStat data n col) = ["number"]
  ∧ 0 < present (columnStat data n col).
Proof.
  unfold columnStat. cbn [numericStats types present].
  set (nm := nonMissingValues data col).
  set (kinds := Set_from String.eqb (map typeof nm)).
  destruct (_ && _ && (0 <? length nm)%nat) eqn:Hcond; [|by intros [? ?]].
  apply andb_prop in Hcond as [Hkind Hlen]. intros _.
  split; [by apply singleton_kind|by apply Nat.ltb_lt].
Qed.

Lemma columnStat_categorical (data : list Row) (n : nat) (col : string) :
  is_Some (categoricalStats (columnStat data n col)) →
  (types (columnStat data n col) = ["string"]
   ∨ types (columnStat data n col) = ["boolean"])
  ∧ 0 < present (columnStat data n col)
  ∧ categoricalStats (columnStat data n col)
    = computeCategoricalStats (map toString (nonMissingValues data col)).
Proof.
  unfold columnStat. cbn [categoricalStats types present].
  set (nm := nonMissingValues data col).
  set (kinds := Set_from String.eqb (map typeof nm)).
  destruct (_ && _ && (0 <? length nm)%nat) eqn:Hcond; [|by intros [? ?]].
  apply andb_prop in Hcond as [Hkind Hlen]. intros _.
  split_and!; [|by apply Nat.ltb_lt|done].
  apply andb_prop in Hkind as [Hone [Hstr|Hbool]%orb_prop].
  - left. apply singleton_kind. by rewrite Hone, Hstr.
  - right. apply singleton_kind. by rewrite Hone, Hbool.
Qed.

(** C2: an entry of [columnStats] never has both kinds of statistics;
    numeric statistics are there only when the kinds seen are exactly
    [number] and a value is present, categorical statistics only when the
    kinds seen are a non-empty part of [string], [boolean] (the values being
    turned into strings, a boolean into "true" or "false"); a column with
    more than one kind has neither, and its entry still has the counts and
    the list of kinds. *)
Theorem stats_by_kind (data : list Row) (options : ProfileOptions.t)
    (col : string) (s : ColumnStat) :
  columnStats (profile data options) !! col = Some s →
  ¬ (is_Some (numericStats s) ∧ is_Some (categoricalStats s))
  ∧ (is_Some (numericStats s) → types s = ["number"] ∧ 0 < present s)
  ∧ (is_Some (categoricalStats s) →
       (types s = ["string"] ∨ types s = ["boolean"]) ∧ 0 < present s
       ∧ categoricalStats s
         = computeCategoricalStats (map toString (nonMissingValues data col))
       ∧ ∀ b, toString (VBoolean b) = if b then "true" else "false")
  ∧ (1 < length (types s) →
       numericStats s = None ∧ categoricalStats s = None)
  ∧ present s = length (nonMissingValues data col)
  ∧ missing s = length data - present s
  ∧ types s = Set_from String.eqb (map typeof (nonMissingValues data col)).
Proof.
  rewrite columnStats_lookup. case_decide as Hcol; [|done].
  intros [= <-].
  pose proof (columnStat_numeric data (length data) col) as Hnum.
  pose proof (columnStat_categorical data (length data) col) as Hcat.
  split_and!.
  - intros [[Hn _]%Hnum [[Hc|Hc] _]%Hcat]; congruence.
  - done.
  - intros Hsome. destruct (Hcat Hsome) as (? & ? & ?).
    split_and!; [done..|by intros []].
  - intros Hlen. split.
    + apply eq_None_not_Some. intros [Hn _]%Hnum. rewrite Hn in Hlen.
      simpl in Hlen. lia.
    + apply eq_None_not_Some. intros [[Hc|Hc] _]%Hcat;
        rewrite Hc in Hlen; simpl in Hlen; lia.
  - done.
  - done.
  - done.
Qed.

(** *** The association matrix *)

Lemma String_ltb_irrefl (x : string) : String.ltb x x = false.
Proof.
  unfold String.ltb. pose proof (String.compare_antisym x x) as Hx.
  by destruct (String.compare x x).
Qed.

Lemma String_ltb_asym (x y : string) :
  String.ltb x y = true → String.ltb y x = false.
Proof.
  unfold String.ltb. rewrite (String.compare_antisym x y).
  by destruct (String.compare y x).
Qed.

Lemma String_le_ne_ltb (x y : string) :
  String.le x y → x ≠ y → String.ltb x y = true.
Proof.
  unfold String.le, String.leb, String.ltb. intros Hle Hne.
  destruct (String.compare x y) eqn:Hcmp; [|done..].
  by apply String.compare_eq_iff in Hcmp.
Qed.

Lemma elem_of_pairsAfter (l : list string) (x y : string) :
  StronglySorted String.le l → NoDup l →
  (x, y) ∈ pairsAfter l ↔ x ∈ l ∧ y ∈ l ∧ String.ltb x y = true.
Proof.
  induction 1 as [|c l Hl IH Hc]; intros Hnd; simpl.
  - rewrite elem_of_nil. split; [done|]. by intros (?%elem_of_nil & _).
  - apply NoDup_cons in Hnd as [Hcl Hnd].
    rewrite elem_of_app, list_elem_of_fmap, (IH Hnd), !elem_of_cons.
    rewrite Forall_forall in Hc. split.
    + intros [(z & [= -> ->] & Hz)|(Hx & Hy & Hlt)].
      * split_and!; [by left|by right|].
        apply String_le_ne_ltb; [by apply Hc|]. by intros ->.
      * split_and!; [by right|by right|done].
    + intros ([->|Hx] & [->|Hy] & Hlt).
      * by rewrite String_ltb_irrefl in Hlt.
      * left. by exists y.
      * pose proof (Hc _ Hx) as Hle. apply String_ltb_le in Hlt.
        assert (x = c) as -> by (by apply (anti_symm String.le)). done.
      * by right.
Qed.

Lemma cell_setCell (m : gmap string (gmap string float)) (x y : string)
    (v : float) (c1 c2 : string) :
  is_Some (m !! x) →
  cell (setCell m x y v) c1 c2
  = if decide (c1 = x ∧ c2 = y ∧ y ≠ "__proto__") then Some v
    else cell m c1 c2.
Proof.
  intros [inner Hinner]. unfold cell, setCell.
  destruct (String.eqb_spec y "__proto__") as [->|Hy].
  { by rewrite decide_False by (by intros (_ & _ & ?)). }
  destruct (decide (c1 = x)) as [->|Hne].
  - rewrite lookup_alter_eq, Hinner. simpl.
    destruct (decide (c2 = y)) as [->|Hne2].
    + rewrite decide_True by done. by rewrite lookup_insert_eq.
    + rewrite decide_False by (by intros (_ & ? & _)).
      by rewrite lookup_insert_ne.
  - rewrite lookup_alter_ne by done.
    by rewrite decide_False by (by intros [? _]).
Qed.

Lemma setCell_is_Some (m : gmap string (gmap string float)) (x y : string)
    (v : float) (c : string) :
  is_Some (setCell m x y v !! c) ↔ is_Some (m !! c).
Proof.
  unfold setCell. destruct (String.eqb y "__proto__"); [done|].
  destruct (decide (c = x)) as [->|Hne].
  - rewrite lookup_alter_eq. by rewrite fmap_is_Some.
  - by rewrite lookup_alter_ne.
Qed.

(** The matrix, as written, after the loop has run over a list [ps] of
    pairs that are ordered pairs of distinct columns. *)
Lemma association_loop (cols : list string)
    (columnStats : gmap string ColumnStat) (data : list Row)
    (ps : list (string * string)) :
  (∀ x y, (x, y) ∈ ps → x ∈ cols ∧ y ∈ cols ∧ String.ltb x y = true) →
  let assoc :=
    foldl (λ assoc '(c1, c2),
             let value := associationValue columnStats data c1 c2 in
             if negb (Number.isNaN value)
             then setCell (setCell assoc c1 c2 value) c2 c1 value
             else assoc)
          (foldl (λ assoc c, <[c := ∅]> assoc) ∅ cols) ps in
  (∀ c, is_Some (assoc !! c) ↔ c ∈ cols)
  ∧ ∀ c1 c2 v,
      cell assoc c1 c2 = Some v
      ↔ ((c1, c2) ∈ ps ∨ (c2, c1) ∈ ps)
        ∧ c2 ≠ "__proto__"
        ∧ v = pairStatistic columnStats data c1 c2
        ∧ Number.isNaN v = false.
Proof.
  induction ps as [|[x y] ps IH] using rev_ind; intros Hps; cbv zeta.
  - simpl. split.
    + intros c. rewrite (lookup_foldl_insert (λ _, ∅)).
      case_decide; [by split; eauto|]. split; [by intros [? ?]|done].
    + intros c1 c2 v. unfold cell.
      rewrite (lookup_foldl_insert (λ _, ∅)). split.
      * case_decide; simpl; [by rewrite lookup_empty|done].
      * by intros ([?%elem_of_nil|?%elem_of_nil] & _).
  - rewrite foldl_snoc.
    destruct IH as [IHdom IHcell].
    { intros x' y' Hin. apply Hps. apply elem_of_app. by left. }
    destruct (Hps x y) as (Hx & Hy & Hlt);
      [apply elem_of_app; right; apply list_elem_of_singleton; done|].
    set (assoc := foldl _ _ ps) in *.
    assert (x ≠ y) as Hxy by (intros ->; by rewrite String_ltb_irrefl in Hlt).
    pose proof (String_ltb_asym _ _ Hlt) as Hgt.
    assert (pairStatistic columnStats data x y
            = associationValue columnStats data x y) as Hstat1
      by (unfold pairStatistic; by rewrite Hlt).
    assert (pairStatistic columnStats data y x
            = associationValue columnStats data x y) as Hstat2
      by (unfold pairStatistic; by rewrite Hgt).
    set (value := associationValue columnStats data x y) in *.
    destruct (Number.isNaN value) eqn:Hnan; cbn [negb].
    + split; [done|]. intros c1 c2 v. rewrite IHcell.
      rewrite !elem_of_app, !list_elem_of_singleton. split.
      * intros ([?|?] & ? & ? & ?); split_and!; auto.
      * intros ([[?|[= -> ->]]|[?|[= -> ->]]] & Hne & Hv & Hnn);
          split_and!; auto; congruence.
    + split.
      * intros c. by rewrite !setCell_is_Some.
      * intros c1 c2 v.
        rewrite cell_setCell by (rewrite setCell_is_Some; by apply IHdom).
        rewrite cell_setCell by (by apply IHdom).
        rewrite !elem_of_app, !list_elem_of_singleton.
        destruct (decide (c1 = y ∧ c2 = x ∧ x ≠ "__proto__"))
          as [(-> & -> & Hpx)|Hne1];
          [|destruct (decide (c1 = x ∧ c2 = y ∧ y ≠ "__proto__"))
              as [(-> & -> & Hpy)|Hne2]].
        -- rewrite Hstat2. split.
           ++ intros [= <-]. split_and!; auto.
           ++ intros (_ & _ & -> & _). done.
        -- rewrite Hstat1. split.
           ++ intros [= <-]. split_and!; auto.
           ++ intros (_ & _ & -> & _). done.
        -- rewrite IHcell. split.
           ++ intros ([?|?] & ? & ? & ?); split_and!; auto.
           ++ intros ([[?|[= -> ->]]|[?|[= -> ->]]] & Hne & Hv & Hnn);
                split_and!; auto; by (exfalso; auto).
Qed.

Lemma String_ltb_total (x y : string) :
  x ≠ y → String.ltb x y = true ∨ String.ltb y x = true.
Proof.
  intros Hne. destruct (String.ltb x y) eqn:Hlt; [by left|right].
  apply String_le_ne_ltb; [by apply String_not_ltb_le|done].
Qed.

Lemma pairStatistic_sym (columnStats : gmap string ColumnStat)
    (data : list Row) (c1 c2 : string) :
  c1 ≠ c2 →
  pairStatistic columnStats data c1 c2 = pairStatistic columnStats data c2 c1.
Proof.
  intros Hne. unfold pairStatistic.
  destruct (String_ltb_total c1 c2 Hne) as [Hlt|Hlt]; rewrite Hlt;
    by rewrite (String_ltb_asym _ _ Hlt).
Qed.

(** The cells of the matrix that [computeAssociationMatrix] returns for a
    sorted column list without repetition of at most 50 columns: one for
    every two distinct columns, neither of them named ['__proto__'], for
    which the loop computes a value that is not NaN. *)
Lemma computeAssociationMatrix_cell (cols : list string)
    (columnStats : gmap string ColumnStat) (data : list Row)
    (c1 c2 : string) (v : float) :
  StronglySorted String.le cols → NoDup cols → (length cols ≤ 50)%nat →
  cell (computeAssociationMatrix cols columnStats data) c1 c2 = Some v
  ↔ c1 ∈ cols ∧ c2 ∈ cols ∧ c1 ≠ c2
    ∧ c1 ≠ "__proto__" ∧ c2 ≠ "__proto__"
    ∧ v = pairStatistic columnStats data c1 c2
    ∧ Number.isNaN v = false.
Proof.
  intros Hsorted Hnd Hlen. unfold computeAssociationMatrix.
  replace (50 <? length cols)%nat with false
    by (symmetry; apply Nat.ltb_ge; lia).
  destruct (association_loop cols columnStats data (pairsAfter cols))
    as [_ Hcell].
  { intros x y. by apply elem_of_pairsAfter. }
  cbv zeta in Hcell. unfold cell in *. rewrite lookup_ownProperties.
  destruct (decide (c1 = "__proto__")) as [->|Hc1].
  { simpl. split; [done|]. by intros (_ & _ & _ & ? & _). }
  rewrite Hcell, !(elem_of_pairsAfter cols) by done. split.
  - intros ([(? & ? & Hlt)|(? & ? & Hlt)] & ? & ? & ?); split_and!; try done;
      intros ->; by rewrite String_ltb_irrefl in Hlt.
  - intros (? & ? & Hne & ? & ? & ? & ?). split_and!; try done.
    destruct (String_ltb_total c1 c2 Hne); [left|right]; done.
Qed.

(** With the association matrix requested and at most 50 columns, the
    matrix is symmetric, holds no NaN and no cell [c][c]. *)
Lemma association_matrix_symmetric (data : list Row)
    (options : ProfileOptions.t) (m : gmap string (gmap string float)) :
  associationMatrix (profile data options) = Some m →
  (length (columns (profile data options)) ≤ 50)%nat →
  ∀ c1 c2,
    cell m c1 c2 = cell m c2 c1
    ∧ (∀ v, cell m c1 c2 = Some v → Number.isNaN v = false)
    ∧ cell m c1 c1 = None.
Proof.
  destruct data as [|row data]; [done|].
  rewrite profile_nonempty by done. cbv zeta.
  cbn [associationMatrix columns columnStats].
  set (cols := columnsOf (row :: data)).
  set (stats := (columnScan cols (row :: data) (length (row :: data))).1).
  destruct (ProfileOptions.associationMatrix options); [|done].
  intros [= <-] Hlen c1 c2.
  pose proof (λ c1 c2 v, computeAssociationMatrix_cell cols stats (row :: data)
                c1 c2 v (sorted_columnsOf _) (NoDup_columnsOf _) Hlen) as Hcell.
  split_and!.
  - apply option_eq. intros v. rewrite !Hcell. split;
      intros (? & ? & Hne & ? & ? & -> & ?); split_and!; try done;
      by rewrite pairStatistic_sym.
  - intros v. rewrite Hcell. tauto.
  - apply eq_None_not_Some. intros [v Hv]. apply Hcell in Hv. tauto.
Qed.

(** *** The rows that enter a correlation *)

(** [pearsonFromData] pairs the rows whose two cells are of type
    [number]; the test is on the type alone. *)
Lemma elem_of_numberPairs (data : list Row) (c1 c2 : string) (x y : float) :
  (x, y) ∈ numberPairs data c1 c2
  ↔ ∃ row, row ∈ data ∧ get row c1 = VNumber x ∧ get row c2 = VNumber y.
Proof.
  unfold numberPairs. rewrite list_elem_of_omap. split.
  - intros (row & Hrow & Hpair). exists row. split; [done|].
    destruct (get row c1) as [| |v1| | | |]; try done.
    destruct (get row c2) as [| |v2| | | |]; try done.
    by injection Hpair as -> ->.
  - intros (row & Hrow & Hx & Hy). exists row. by rewrite Hx, Hy.
Qed.

Lemma pearson_needs_two_pairs (data : list Row) (c1 c2 : string) :
  length (numberPairs data c1 c2) < 2 → pearsonFromData data c1 c2 = nan.
Proof.
  intros Hlen. unfold pearsonFromData.
  by apply Nat.ltb_lt in Hlen as ->.
Qed.

(** *** Keys and functional dependencies *)

Lemma elem_of_nonMissingValues (data : list Row) (col : string) (v : value) :
  v ∈ nonMissingValues data col
  ↔ notMissing v = true ∧ ∃ row, row ∈ data ∧ get row col = v.
Proof.
  unfold nonMissingValues. rewrite list_elem_of_filter, list_elem_of_fmap.
  rewrite Is_true_true. split.
  - intros (? & row & -> & ?). split; [done|]. exists row.
    by rewrite get_in_get.
  - intros (? & row & ? & <-). split; [done|]. exists row.
    by rewrite get_in_get.
Qed.




Lemma gset_size_le_1_inv (S : gset string) (x y : string) :
  size S ≤ 1 → x ∈ S → y ∈ S → x = y.
Proof.
  intros Hsize Hx Hy. destruct (decide (x = y)) as [|Hne]; [done|exfalso].
  assert (({[x]} ∪ {[y]} : gset string) ⊆ S) as Hsub
    by (apply union_subseteq; split; by apply singleton_subseteq_l).
  apply subseteq_size in Hsub.
  rewrite size_union, !size_singleton in Hsub by set_solver. lia.
Qed.


Lemma isFD_true (groups : gmap string (gset string)) :
  isFD groups = true ↔ ∀ k S, groups !! k = Some S → size S ≤ 1.
Proof.
  unfold isFD. rewrite forallb_forall. split.
  - intros Hall k S Hk.
    assert (negb (1 <? size S)%nat = true) as Hs.
    { apply Hall, list_elem_of_In, list_elem_of_fmap. exists (k, S).
      split; [done|]. by apply elem_of_map_to_list. }
    apply negb_true_iff, Nat.ltb_ge in Hs. done.
  - intros Hall S [[k S'] [-> Hin]]%list_elem_of_In%list_elem_of_fmap.
    apply elem_of_map_to_list in Hin. apply negb_true_iff, Nat.ltb_ge.
    by eapply Hall.
Qed.

(** A row of [data ++ [row]] is a row of [data] or the last one. *)
Ltac snoc_row H :=
  apply elem_of_app in H as [H|H%list_elem_of_singleton].

(** One iteration of the loop that fills [groups]. *)
Lemma fdGroups_step (groups : gmap string (gset string)) (row : Row)
    (a b : string) (k : string) :
  (let va := get row a in
   let vb := get row b in
   if notMissing va then
     let key := stringKey va in
     let groups :=
       if bool_decide (is_Some (groups !! key)) then groups
       else <[key := ∅]> groups in
     if notMissing vb
     then alter (λ s, s ∪ {[stringKey vb]}) key groups
     else groups
   else groups) !! k
  = if notMissing (get row a) && bool_decide (k = stringKey (get row a))
    then Some (default ∅ (groups !! k)
               ∪ (if notMissing (get row b)
                  then {[stringKey (get row b)]} else ∅))
    else groups !! k.
Proof.
  cbv zeta. destruct (notMissing (get row a)); [|done]. cbn [andb].
  set (key := stringKey (get row a)).
  assert (∀ k',
            (if bool_decide (is_Some (groups !! key))
             then groups else <[key := ∅]> groups) !! k'
            = if decide (k' = key) then Some (default ∅ (groups !! key))
              else groups !! k') as Hpre.
  { intros k'. case_bool_decide as Hsome.
    - destruct (decide (k' = key)) as [->|]; [|done].
      by destruct Hsome as [S ->].
    - apply eq_None_not_Some in Hsome.
      destruct (decide (k' = key)) as [->|].
      + by rewrite lookup_insert_eq, Hsome.
      + by rewrite lookup_insert_ne. }
  destruct (decide (k = key)) as [->|Hne].
  - rewrite (bool_decide_true (key = key)) by done.
    destruct (notMissing (get row b)).
    + by rewrite lookup_alter_eq, Hpre, decide_True.
    + by rewrite Hpre, decide_True, union_empty_r_L.
  - rewrite (bool_decide_false (k = key)) by done.
    destruct (notMissing (get row b)).
    + by rewrite lookup_alter_ne, Hpre, decide_False.
    + by rewrite Hpre, decide_False.
Qed.

(** The groups after the loop: one group per stringified non-missing value
    of [a], holding the stringified non-missing values of [b] in the rows
    of that group. *)
Lemma fdGroups_spec (data : list Row) (a b : string) :
  (∀ k, is_Some (fdGroups data a b !! k)
        ↔ ∃ row, row ∈ data ∧ notMissing (get row a) = true
                 ∧ stringKey (get row a) = k)
  ∧ ∀ k S x, fdGroups data a b !! k = Some S →
      (x ∈ S ↔ ∃ row, row ∈ data ∧ notMissing (get row a) = true
                      ∧ stringKey (get row a) = k
                      ∧ notMissing (get row b) = true
                      ∧ stringKey (get row b) = x).
Proof.
  unfold fdGroups. induction data as [|row data [IHdom IHset]] using rev_ind.
  - simpl. split.
    + intros k. rewrite lookup_empty. split; [by intros [? ?]|].
      by intros (? & ?%elem_of_nil & _).
    + intros k S x. by rewrite lookup_empty.
  - rewrite foldl_snoc. set (groups := foldl _ ∅ data) in *. split.
    + intros k. rewrite fdGroups_step.
      destruct (notMissing (get row a)) eqn:Ha; cbn [andb].
      * case_bool_decide as Hk.
        -- split; [|by eauto]. intros _. exists row.
           split_and!; [apply elem_of_app; right; by left|done..].
        -- rewrite IHdom. split.
           ++ intros (r & ? & ? & ?). exists r.
              split_and!; [apply elem_of_app; by left|done..].
           ++ intros (r & Hr & ? & ?).
              snoc_row Hr; [by exists r|subst; congruence].
      * rewrite IHdom. split.
        -- intros (r & ? & ? & ?). exists r.
           split_and!; [apply elem_of_app; by left|done..].
        -- intros (r & Hr & ? & ?).
           snoc_row Hr; [by exists r|subst; congruence].
    + intros k S x. rewrite fdGroups_step.
      assert (∀ S0, groups !! k = Some S0 →
                (x ∈ S0 ↔ ∃ r, r ∈ data ∧ notMissing (get r a) = true
                               ∧ stringKey (get r a) = k
                               ∧ notMissing (get r b) = true
                               ∧ stringKey (get r b) = x)) as IH
        by (intros S0; apply IHset).
      assert (groups !! k = None →
              ¬ ∃ r, r ∈ data ∧ notMissing (get r a) = true
                     ∧ stringKey (get r a) = k
                     ∧ notMissing (get r b) = true
                     ∧ stringKey (get r b) = x) as IHnone.
      { intros Hnone (r & ? & ? & ? & _).
        assert (is_Some (groups !! k)) as [? ?] by (apply IHdom; eauto).
        congruence. }
      destruct (notMissing (get row a)) eqn:Ha; cbn [andb].
      * case_bool_decide as Hk.
        -- intros [= <-]. rewrite elem_of_union. split.
           ++ intros [Hx|Hx].
              ** destruct (groups !! k) as [S0|] eqn:HS0; simpl in Hx;
                   [|by apply elem_of_empty in Hx].
                 apply (IH S0 eq_refl) in Hx as (r & ? & ?). exists r.
                 split; [apply elem_of_app; by left|done].
              ** destruct (notMissing (get row b)) eqn:Hb;
                   [|by apply elem_of_empty in Hx].
                 apply elem_of_singleton in Hx as ->. exists row.
                 split_and!; [apply elem_of_app; right; by left|done..].
           ++ intros (r & Hr & Hra & Hka & Hrb & Hkb). snoc_row Hr; [|subst r].
              ** left. destruct (groups !! k) as [S0|] eqn:HS0; simpl.
                 --- apply (IH S0 eq_refl). by exists r.
                 --- exfalso. apply (IHnone eq_refl). by exists r.
              ** right. rewrite Hrb. by apply elem_of_singleton.
        -- intros HS. rewrite (IH S HS). split.
           ++ intros (r & ? & ?). exists r.
              split; [apply elem_of_app; by left|done].
           ++ intros (r & Hr & ? & ? & ?).
              snoc_row Hr; [by exists r|subst; congruence].
      * intros HS. rewrite (IH S HS). split.
        -- intros (r & ? & ?). exists r.
           split; [apply elem_of_app; by left|done].
        -- intros (r & Hr & ? & ? & ?).
           snoc_row Hr; [by exists r|subst; congruence].
Qed.

(** *** Outliers *)

(** The z-score test is behind the guard [stat.stddev > 0]: with a
    standard deviation that is not positive no value is counted and no
    quotient is formed. *)
Lemma zscore_guard (columnStats : gmap string ColumnStat)
    (colValues : gmap string (list value)) (cols : list string)
    (col : string) (o : Outliers) (stat : NumericStats.t) :
  computeOutliers cols columnStats colValues !! col = Some o →
  numericStats (statOf columnStats col) = Some stat →
  PrimFloat.ltb 0 (NumericStats.stddev stat) = false →
  zscoreCount o = 0.
Proof.
  unfold computeOutliers. rewrite lookup_ownProperties.
  case_decide as Hproto; [done|]. revert o.
  induction cols as [|c cols IH] using rev_ind; intros o.
  - simpl. by rewrite lookup_empty.
  - rewrite foldl_snoc. set (out := foldl _ ∅ cols) in *.
    destruct (numericStats (statOf columnStats c)) as [stat'|] eqn:Hc;
      [|by apply IH].
    destruct (decide (col = c)) as [->|Hne].
    + rewrite lookup_insert_eq. intros [= <-] Hstat Hsd.
      rewrite Hc in Hstat. injection Hstat as ->. cbn [zscoreCount].
      generalize (map asNumber (default [] (colValues !! c))).
      intros nums.
      assert (∀ counts,
                (foldl (λ counts x,
                          ((if PrimFloat.ltb x
                                 ((NumericStats.quartiles stat).1.1
                                  - 1.5 * ((NumericStats.quartiles stat).2
                                           - (NumericStats.quartiles stat).1.1))
                               || PrimFloat.ltb
                                    ((NumericStats.quartiles stat).2
                                     + 1.5 * ((NumericStats.quartiles stat).2
                                              - (NumericStats.quartiles stat).1.1))
                                    x
                            then S counts.1 else counts.1),
                           (if PrimFloat.ltb 0 (NumericStats.stddev stat)
                               && PrimFloat.ltb 3
                                    (PrimFloat.abs
                                       ((x - NumericStats.mean stat)
                                        / NumericStats.stddev stat))
                            then S counts.2 else counts.2)))
                       counts nums).2 = counts.2)%float as Hfold.
      { induction nums as [|x nums IHn]; intros counts; simpl; [done|].
        rewrite IHn. simpl. by rewrite Hsd. }
      apply Hfold.
    + rewrite lookup_insert_ne by done. apply IH.
Qed.
End Summary.

(** ** Where the code departs from its description *)

(** C1 on the code: non-finite numbers are counted as present, give the
    kind [number], and are among the values the numeric statistics are
    computed from.  In the table of the test 'numeric stats with special
    values' all six values are present, where the test expects three. *)
Theorem nonfinite_numbers_are_present `{Builtins} :
  columnStats (profile specialValuesTable noOptions) !! "value"
  = Some {| present := 6; missing := 0; types := ["number"];
            numericStats :=
              computeNumericStats [1; 2; 3; nan; infinity; neg_infinity]%float;
            categoricalStats := None |}
  ∧ (NumericStats.mean
       <$> computeNumericStats [1; 2; 3; nan; infinity; neg_infinity]%float)
    = Some nan
  ∧ (present <$> columnStats (profile nanTable noOptions) !! "value") = Some 1
  ∧ (types <$> columnStats (profile nanTable noOptions) !! "value")
    = Some ["number"].
Proof.
  split_and!; [|vm_compute; reflexivity..].
  rewrite columnStats_lookup, profile_columns.
  rewrite decide_True by (split; [vm_compute; left|done]).
  reflexivity.
Qed.

(** C5 on the code: the pairs of [pearsonFromData] are the rows where both
    cells are of type [number], finite or not.  With one infinite value
    the correlation is NaN and the cell is left out, although the two
    finite rows have a correlation. *)
Theorem pearson_pairs_nonfinite_rows `{Builtins} :
  let options := ProfileOptions.mk true false false false false in
  getType (statOf (columnStats (profile infinityTable options)) "a") = "numeric"
  ∧ getType (statOf (columnStats (profile infinityTable options)) "b") = "numeric"
  ∧ numberPairs infinityTable "a" "b"
    = [(1, 2); (2, 4); (infinity, 6)]%float
  ∧ pearsonFromData infinityTable "a" "b" = nan
  ∧ (m ← associationMatrix (profile infinityTable options); cell m "a" "b")
    = None
  ∧ Number.isNaN (pearsonFromData (take 2 infinityTable) "a" "b") = false.
Proof. cbv zeta. split_and!; vm_compute; reflexivity. Qed.

(** C8 on the code: in a column that holds [Number.MIN_VALUE] three times
    the standard deviation is 0, but the interpolation
    [x * (1 - 0.5) + x * 0.5] of the quartiles underflows to 0, both
    fences are 0, and every value lies above the upper fence. *)
Theorem tiny_constant_column_outliers `{Builtins} :
  let options := ProfileOptions.mk false false false true false in
  let r := profile tinyConstantTable options in
  (NumericStats.stddev <$> (columnStats r !! "v" ≫= numericStats))
  = Some 0%float
  ∧ (NumericStats.quartiles <$> (columnStats r !! "v" ≫= numericStats))
    = Some (0, 0x1p-1074, 0)%float
  ∧ (outliers r ≫= (.!! "v")) = Some {| tukeyCount := 3; zscoreCount := 0 |}.
Proof. cbv zeta. split_and!; vm_compute; reflexivity. Qed.

(** C4 on the code: a cell is stored whenever the number that the loop
    computes is not NaN, which is not when the statistic of the pair is
    defined.  In [constantNumberTable] the column [constant] has no
    variance, but the mean of 0.1, 0.1, 0.1 is computed as
    0.10000000000000002, the deviations are not 0, and a cell is stored in
    both directions.  In [hugeTable] the two columns are equal and vary,
    but the squares of the deviations overflow, the quotient is that of two
    infinities, and no cell is stored. *)
Theorem association_cell_follows_rounding `{Builtins} :
  let options := ProfileOptions.mk true false false false false in
  numberPairs constantNumberTable "constant" "varying"
  = [(0x1.999999999999ap-4, 1); (0x1.999999999999ap-4, 2);
     (0x1.999999999999ap-4, 3)]%float
  ∧ (m ← associationMatrix (profile constantNumberTable options);
     cell m "constant" "varying") = Some 0%float
  ∧ (m ← associationMatrix (profile constantNumberTable options);
     cell m "varying" "constant") = Some 0%float
  ∧ numberPairs hugeTable "x" "y"
    = [(0x1.4e718d7d7625ap+664, 0x1.4e718d7d7625ap+664);
       (-0x1.4e718d7d7625ap+664, -0x1.4e718d7d7625ap+664)]%float
  ∧ getType (statOf (columnStats (profile hugeTable options)) "x") = "numeric"
  ∧ getType (statOf (columnStats (profile hugeTable options)) "y") = "numeric"
  ∧ (m ← associationMatrix (profile hugeTable options); cell m "x" "y")
    = None.
Proof. cbv zeta. split_and!; vm_compute; reflexivity. Qed.

(** C9 on the code: a column that a record lacks is filled with [null]
    only if [Object.prototype] has no member of that name, because the
    test is [col in row].  In [constructorTable] the second record has no
    property ['constructor']; its sample row holds the function [Object]
    there, where the claim has [null]. *)
Theorem sample_row_inherited_member `{Builtins} :
  columns (profile constructorTable noOptions) = ["a"; "constructor"]
  ∧ constructorTable !! 1 = Some (record [("a", VNumber 2)])
  ∧ sampleRows (profile constructorTable noOptions)
    = [ record [("a", VNull); ("constructor", VNumber 1)];
        record [("a", VNumber 2);
                ("constructor",
                 VFunction (Fn 1 "function Object() { [native code] }"))] ].
Proof. split_and!; vm_compute; reflexivity. Qed.


(** ** Witnesses: the hypotheses of the theorems hold on the test tables *)

Lemma stats_by_kind_witness :
  let s := columnStat (H:=exampleHost) basicTable 3 "age" in
  columnStats (profile (H:=exampleHost) basicTable noOptions) !! "age" = Some s
  ∧ ¬ (is_Some (numericStats s) ∧ is_Some (categoricalStats s))
  ∧ types s = ["number"].
Proof.
  cbv zeta.
  assert (columnStats (profile (H:=exampleHost) basicTable noOptions) !! "age"
          = Some (columnStat (H:=exampleHost) basicTable 3 "age")) as Hs
    by (vm_compute; reflexivity).
  split; [exact Hs|].
  destruct (stats_by_kind (H:=exampleHost) basicTable noOptions "age" _ Hs)
    as (Hboth & Hnum & _).
  split; [exact Hboth|]. apply Hnum. vm_compute. eauto.
Defined.


Lemma profile_empty_table_witness :
  length ([] : list Row) = 0
  ∧ profile (H:=exampleHost) [] allOptions =
    {| rowCount := 0; columns := []; columnStats := ∅; sampleRows := [];
       associationMatrix := None; keysAndDependencies := None;
       missingnessPatterns := None; outliers := None;
       categoricalEntropy := None |}.
Proof.
  split; [reflexivity|].
  apply (profile_empty_table (H:=exampleHost) [] allOptions). reflexivity.
Defined.

Lemma performance_caps_witness :
  associationMatrix (profile (H:=exampleHost) (wideTable 60) allOptions)
  = Some ∅
  ∧ keysAndDependencies (profile (H:=exampleHost) (wideTable 60) allOptions)
    = Some {| candidatePrimaryKeys := []; functionalDependencies := [] |}
  ∧ (topCoMissingPairs
       <$> missingnessPatterns
             (profile (H:=exampleHost) (wideTable 51) allOptions))
    = Some [].
Proof.
  apply (performance_caps (H:=exampleHost) (wideTable 60) (wideTable 51)
           allOptions).
  - reflexivity.
  - reflexivity.
  - reflexivity.
  - vm_compute. reflexivity.
  - vm_compute. reflexivity.
Defined.

(** * Further properties of the components *)

(** ** Sorting by a count, and maps kept as lists *)

Section SortByCount.
Context {A : Type} (count : A → nat).

(** The comparator [(a, b) => count(b) - count(a)] sorts by descending
    count. *)
Lemma sort_insert_descending (x : A) (l : list A) :
  StronglySorted (λ a b, count b ≤ count a) l →
  StronglySorted (λ a b, count b ≤ count a)
    (sort_insert (λ a b, (count b <? count a)%nat) x l).
Proof.
  induction 1 as [|y l Hl IH Hy]; simpl.
  - repeat constructor.
  - destruct (count y <? count x)%nat eqn:Hxy.
    + apply Nat.ltb_lt in Hxy. constructor; [by constructor|].
      constructor; [lia|].
      eapply Forall_impl; [exact Hy|]. simpl. intros z Hz. lia.
    + apply Nat.ltb_ge in Hxy. constructor; [done|].
      rewrite (sort_insert_Permutation _ x l). by constructor.
Qed.

Lemma Array_sort_descending (l : list A) :
  StronglySorted (λ a b, count b ≤ count a)
    (Array_sort (λ a b, (count b <? count a)%nat) l).
Proof.
  unfold Array_sort.
  assert (∀ acc, StronglySorted (λ a b, count b ≤ count a) acc →
            StronglySorted (λ a b, count b ≤ count a)
              (foldl (λ acc x,
                        sort_insert (λ a b, (count b <? count a)%nat) x acc)
                     acc l)) as Hgen.
  { induction l as [|x l IH]; intros acc Hacc; simpl; [done|].
    by apply IH, sort_insert_descending. }
  apply Hgen. constructor.
Qed.

Lemma take_sorted_descending (n : nat) (l : list A) :
  StronglySorted (λ a b, count b ≤ count a) l →
  StronglySorted (λ a b, count b ≤ count a) (take n l).
Proof.
  intros Hl. rewrite <-(take_drop n l) in Hl.
  by apply StronglySorted_app_1_l in Hl.
Qed.
End SortByCount.

Lemma elem_of_take_subseteq {A : Type} (n : nat) (l : list A) (x : A) :
  x ∈ take n l → x ∈ l.
Proof. intros (i & Hi & _)%elem_of_take. by eapply list_elem_of_lookup_2. Qed.

Section MapFacts.
Context {V : Type}.
Implicit Types (m : list (string * V)) (k : string) (v : V).

Lemma Map_get_set m k v k' :
  Map_get (Map_set m k v) k' = if String.eqb k' k then Some v else Map_get m k'.
Proof.
  induction m as [|[k0 v0] m IH]; simpl.
  - by destruct (String.eqb k' k).
  - destruct (String.eqb_spec k k0) as [->|Hne]; simpl.
    + by destruct (String.eqb k' k0).
    + destruct (String.eqb_spec k' k0) as [->|Hne'].
      * destruct (String.eqb_spec k0 k); [congruence|done].
      * done.
Qed.

Lemma Map_get_None m k : Map_get m k = None ↔ k ∉ m.*1.
Proof.
  induction m as [|[k0 v0] m IH]; csimpl.
  - split; [intros _; apply not_elem_of_nil|done].
  - rewrite not_elem_of_cons. destruct (String.eqb_spec k k0) as [->|Hne].
    + split; [done|]. by intros [? _].
    + rewrite IH. tauto.
Qed.

Lemma Map_set_keys m k v :
  (Map_set m k v).*1 = if Map_get m k is Some _ then m.*1 else (m.*1 ++ [k])%list.
Proof.
  induction m as [|[k0 v0] m IH]; csimpl; [done|].
  destruct (String.eqb_spec k k0) as [->|Hne]; csimpl; [done|].
  rewrite IH. by destruct (Map_get m k).
Qed.

Lemma Map_set_keys_NoDup m k v : NoDup m.*1 → NoDup (Map_set m k v).*1.
Proof.
  intros Hm. rewrite Map_set_keys. destruct (Map_get m k) eqn:Hk; [done|].
  apply Map_get_None in Hk. apply NoDup_app. split_and!; [done| |apply NoDup_singleton].
  intros x Hx ->%list_elem_of_singleton. done.
Qed.

Lemma Map_get_elem_of m k v : NoDup m.*1 → (k, v) ∈ m ↔ Map_get m k = Some v.
Proof.
  induction m as [|[k0 v0] m IH]; csimpl; intros Hm.
  - split; [by intros ?%elem_of_nil|done].
  - apply NoDup_cons in Hm as [Hk0 Hm]. rewrite elem_of_cons, (IH Hm).
    destruct (String.eqb_spec k k0) as [->|Hne].
    + split.
      * intros [[= ->]|Hget]; [done|].
        exfalso. apply Hk0. apply eq_None_ne_Some_1 with (x := v) in Hget; [done|].
        by apply Map_get_None.
      * intros [= ->]. by left.
    + split; [|by right]. intros [[= -> ->]|?]; done.
Qed.
End MapFacts.

(** ** The result as a whole *)

Section Components.
Context `{Builtins}.

(** X1: each optional field of the summary is there exactly when its
    option is set and the table has a row. *)
Theorem optional_fields_follow_options (data : list Row)
    (options : ProfileOptions.t) :
  let r := profile data options in
  (is_Some (associationMatrix r)
   ↔ ProfileOptions.associationMatrix options = true ∧ data ≠ [])
  ∧ (is_Some (keysAndDependencies r)
     ↔ ProfileOptions.keysDependencies options = true ∧ data ≠ [])
  ∧ (is_Some (missingnessPatterns r)
     ↔ ProfileOptions.missingnessPatterns options = true ∧ data ≠ [])
  ∧ (is_Some (outliers r)
     ↔ ProfileOptions.outliers options = true ∧ data ≠ [])
  ∧ (is_Some (categoricalEntropy r)
     ↔ ProfileOptions.categoricalEntropy options = true ∧ data ≠ []).
Proof.
  cbv zeta. destruct data as [|row data].
  - simpl. split_and!; (split; [by intros [? ?]|by intros [_ ?]]).
  - rewrite profile_nonempty by done. cbv zeta.
    cbn [associationMatrix keysAndDependencies missingnessPatterns outliers
         categoricalEntropy].
    destruct options as [[] [] [] [] []]; simpl;
      split_and!; (split; [intros [? ?]|intros [? _]]); by eauto.
Qed.

Lemma presentIn_get_in (col : string) (row : Row) :
  presentIn col row = notMissing (get_in row col).
Proof.
  unfold presentIn, get_in. by destruct (has_key col row).
Qed.

Lemma nonMissingValues_length (data : list Row) (col : string) :
  length (nonMissingValues data col)
  = length (filter (λ row, presentIn col row) data).
Proof.
  unfold nonMissingValues. induction data as [|row data IH]; [done|].
  csimpl. rewrite !filter_cons, <-presentIn_get_in.
  destruct (presentIn col row); simpl; by rewrite IH.
Qed.

(** X2: [columnStats] has a property for every column, but for a column
    named ['__proto__'], and for nothing else; in an entry, [present]
    counts the rows in which [col in row] holds, for a property of the
    record or for a member of [Object.prototype], with a value other than
    [undefined] and [null], and [present + missing] is the row count. *)
Theorem column_counts (data : list Row) (options : ProfileOptions.t) :
  let r := profile data options in
  (∀ col, is_Some (columnStats r !! col)
          ↔ col ∈ columns r ∧ col ≠ "__proto__")
  ∧ ∀ col s, columnStats r !! col = Some s →
      present s = length (filter (λ row, presentIn col row) data)
      ∧ present s + missing s = rowCount r.
Proof.
  cbv zeta. split.
  - intros col. rewrite columnStats_lookup. case_decide; [by eauto|].
    split; [by intros [? ?]|done].
  - intros col s. rewrite columnStats_lookup.
    case_decide as Hcol; [|done]. destruct Hcol as [Hcol _].
    intros [= <-]. unfold columnStat. cbn [present missing].
    split; [apply nonMissingValues_length|].
    pose proof (present_le_rowCount data col) as Hle.
    destruct data as [|row data];
      [by rewrite profile_columns in Hcol; apply elem_of_nil in Hcol|].
    rewrite profile_nonempty by done. cbv zeta. cbn [rowCount]. lia.
Qed.

(** X3: the kinds listed for a column are exactly the [typeof] of what the
    reads [row[col]] give where that is neither [undefined] nor [null],
    each listed once; ['undefined'] is never among them, and the list is
    empty exactly when no value is present. *)
Theorem column_kinds (data : list Row) (options : ProfileOptions.t)
    (col : string) (s : ColumnStat) :
  columnStats (profile data options) !! col = Some s →
  NoDup (types s)
  ∧ (∀ kind, kind ∈ types s
             ↔ ∃ row, row ∈ data ∧ notMissing (get row col) = true
                      ∧ typeof (get row col) = kind)
  ∧ ("undefined" ∉ types s)
  ∧ (types s = [] ↔ present s = 0).
Proof.
  rewrite columnStats_lookup. case_decide as Hcol; [|done].
  intros [= <-]. unfold columnStat. cbn [types present].
  assert (∀ kind,
            kind ∈ Set_from String.eqb (map typeof (nonMissingValues data col))
            ↔ ∃ row, row ∈ data ∧ notMissing (get row col) = true
                     ∧ typeof (get row col) = kind) as Hkinds.
  { intros kind. rewrite elem_of_Set_from, list_elem_of_fmap. split.
    - intros (v & -> & (? & row & ? & <-)%elem_of_nonMissingValues). eauto.
    - intros (row & ? & ? & <-). exists (get row col). split; [done|].
      apply elem_of_nonMissingValues. eauto. }
  split_and!.
  - apply NoDup_Set_add_all, NoDup_nil_2.
  - done.
  - intros (row & _ & Hv & Hkind)%Hkinds. by destruct (get row col).
  - split.
    + intros Hnil. destruct (nonMissingValues data col) as [|v vs] eqn:Hvs; [done|].
      exfalso. assert (typeof v ∈ Set_from String.eqb (map typeof (v :: vs))) as Hin
        by (apply elem_of_Set_from, list_elem_of_fmap; exists v; split; [done|left]).
      rewrite Hnil in Hin. by apply elem_of_nil in Hin.
    + intros Hlen. apply nil_length_inv in Hlen. by rewrite Hlen.
Qed.

Lemma computeCategoricalStats_is_Some (cats : list string) :
  is_Some (computeCategoricalStats cats) ↔ cats ≠ [].
Proof.
  unfold computeCategoricalStats. destruct cats as [|c cats]; simpl.
  - split; [by intros [? ?]|done].
  - split; [done|eauto].
Qed.

(** X4: a column whose kinds are exactly number has numeric statistics, and
    a column whose kinds are exactly string, or exactly boolean, has
    categorical statistics. *)
Theorem stats_for_single_kind (data : list Row) (options : ProfileOptions.t)
    (col : string) (s : ColumnStat) :
  columnStats (profile data options) !! col = Some s →
  (types s = ["number"] → is_Some (numericStats s))
  ∧ (types s = ["string"] ∨ types s = ["boolean"] →
     is_Some (categoricalStats s)).
Proof.
  rewrite columnStats_lookup. case_decide as Hcol; [|done].
  intros [= <-]. unfold columnStat. cbn [types numericStats categoricalStats].
  set (nm := nonMissingValues data col).
  assert (∀ kind, Set_from String.eqb (map typeof nm) = [kind] → nm ≠ [])
    as Hne by (intros kind Hk ->; done).
  split.
  - intros Hk. rewrite Hk. pose proof (Hne _ Hk) as Hnm.
    replace (0 <? length nm) with true
      by (symmetry; apply Nat.ltb_lt; destruct nm; simpl; [done|lia]).
    simpl. apply computeNumericStats_is_Some. by destruct nm.
  - intros [Hk|Hk]; rewrite Hk; pose proof (Hne _ Hk) as Hnm;
      (replace (0 <? length nm) with true
         by (symmetry; apply Nat.ltb_lt; destruct nm; simpl; [done|lia]));
      simpl; apply computeCategoricalStats_is_Some; by destruct nm.
Qed.
End Components.

(** ** Statistics of one column *)

Lemma occurrences_snoc (v c : string) (cats : list string) :
  occurrences v (cats ++ [c])
  = occurrences v cats + (if decide (c = v) then 1 else 0).
Proof.
  unfold occurrences. rewrite filter_app, length_app, filter_cons, filter_nil.
  by case_decide.
Qed.

Lemma occurrences_pos (v : string) (cats : list string) :
  occurrences v cats ≠ 0 ↔ v ∈ cats.
Proof.
  unfold occurrences. split.
  - intros Hne. destruct (filter (λ c, c = v) cats) as [|c l] eqn:Hf; [done|].
    assert (c ∈ filter (λ c, c = v) cats) as Hc by (rewrite Hf; left).
    by apply list_elem_of_filter in Hc as [-> ?].
  - intros Hv Hlen. apply nil_length_inv in Hlen.
    eapply (filter_nil_not_elem_of _ _ v); [exact Hlen|done..].
Qed.

Lemma frequencies_snoc (cats : list string) (c : string) :
  frequencies (cats ++ [c])
  = Map_set (frequencies cats) c
      (default 0 (Map_get (frequencies cats) c) + 1).
Proof. unfold frequencies. by rewrite foldl_snoc. Qed.

(** The frequency map holds, for every value that occurs, the number of
    its occurrences. *)
Lemma frequencies_get (cats : list string) (v : string) :
  Map_get (frequencies cats) v
  = if decide (occurrences v cats = 0) then None
    else Some (occurrences v cats).
Proof.
  induction cats as [|c cats IH] using rev_ind; [by rewrite decide_True|].
  rewrite frequencies_snoc, Map_get_set, occurrences_snoc.
  destruct (String.eqb_spec v c) as [->|Hne].
  - rewrite IH, (decide_True (P := c = c)) by done.
    rewrite (decide_False (P := occurrences c cats + 1 = 0)) by lia.
    f_equal. case_decide as Hz; [by rewrite Hz|done].
  - rewrite IH, (decide_False (P := c = v)) by done. by rewrite Nat.add_0_r.
Qed.

Lemma frequencies_NoDup (cats : list string) : NoDup (frequencies cats).*1.
Proof.
  induction cats as [|c cats IH] using rev_ind; [constructor|].
  rewrite frequencies_snoc. by apply Map_set_keys_NoDup.
Qed.

Lemma elem_of_frequencies (cats : list string) (v : string) (n : nat) :
  (v, n) ∈ frequencies cats ↔ n = occurrences v cats ∧ v ∈ cats.
Proof.
  rewrite (Map_get_elem_of _ _ _ (frequencies_NoDup cats)), frequencies_get.
  rewrite <-occurrences_pos. case_decide as Hocc.
  - split; [done|]. by intros [_ ?].
  - split; [by intros [= <-]|]. by intros [-> _].
Qed.

Lemma frequencies_length (cats : list string) :
  length (frequencies cats) = length (remove_dups cats).
Proof.
  rewrite <-(length_fmap fst). apply Permutation_length, NoDup_Permutation.
  - apply frequencies_NoDup.
  - apply NoDup_remove_dups.
  - intros v. rewrite elem_of_remove_dups, list_elem_of_fmap. split.
    + intros ([v' n] & -> & Hin). by apply elem_of_frequencies in Hin as [_ ?].
    + intros Hv. exists (v, occurrences v cats). split; [done|].
      by apply elem_of_frequencies.
Qed.

(** X5: in the categorical statistics of a list of values, [unique] is the
    number of distinct values; [top10] has the 10 most frequent values (all
    of them when there are at most 10), each once, with the number of its
    occurrences, in descending order of count. *)
Theorem categorical_top10 (cats : list string) (c : CategoricalStats.t) :
  computeCategoricalStats cats = Some c →
  CategoricalStats.unique c = length (remove_dups cats)
  ∧ length (CategoricalStats.top10 c) = Nat.min 10 (CategoricalStats.unique c)
  ∧ NoDup (CategoricalStats.top10 c).*1
  ∧ StronglySorted (λ a b, b.2 ≤ a.2) (CategoricalStats.top10 c)
  ∧ (∀ v n, (v, n) ∈ CategoricalStats.top10 c →
            n = occurrences v cats ∧ 0 < n)
  ∧ (∀ v n w, (v, n) ∈ CategoricalStats.top10 c → w ∈ cats →
              w ∉ (CategoricalStats.top10 c).*1 → occurrences w cats ≤ n).
Proof.
  unfold computeCategoricalStats. destruct (length cats =? 0); [done|].
  intros [= <-]. cbn [CategoricalStats.unique CategoricalStats.top10].
  set (freq := frequencies cats).
  set (sorted := Array_sort (λ a b : string * nat, b.2 <? a.2) freq).
  assert (sorted ≡ₚ freq) as Hperm by apply Array_sort_Permutation.
  assert (StronglySorted (λ a b : string * nat, b.2 ≤ a.2) sorted) as Hsorted
    by apply (Array_sort_descending snd).
  assert (NoDup sorted.*1) as Hnd
    by (rewrite Hperm; apply frequencies_NoDup).
  split_and!.
  - apply frequencies_length.
  - by rewrite length_take, Hperm.
  - rewrite fmap_take. rewrite <-(take_drop 10 (sorted.*1)) in Hnd.
    by apply NoDup_app in Hnd as [? _].
  - by apply (take_sorted_descending snd).
  - intros v n Hin%elem_of_take_subseteq. rewrite Hperm in Hin.
    apply elem_of_frequencies in Hin as [-> Hv]. split; [done|].
    apply occurrences_pos in Hv. lia.
  - intros v n w Hin Hw Hnot.
    assert ((w, occurrences w cats) ∈ sorted) as Hws
      by (rewrite Hperm; by apply elem_of_frequencies).
    rewrite <-(take_drop 10 sorted) in Hws, Hsorted.
    apply elem_of_app in Hws as [Hws|Hws].
    + exfalso. apply Hnot, list_elem_of_fmap. by exists (w, occurrences w cats).
    + by apply (StronglySorted_app_1_elem_of _ _ _ _ _ Hsorted Hin Hws).
Qed.

(** *** A column with one value *)

Section OneValue.
Context `{Builtins}.
Local Open Scope float_scope.

(** There is one way to arrange a single value. *)
Lemma sortNumbers_singleton (x : float) : sortNumbers [x] = [x].
Proof.
  unfold sortNumbers. destruct (existsb PrimFloat.is_nan [x]); [|done].
  apply Permutation_singleton_r, Array_sort_inconsistent_Permutation.
Qed.

Lemma is_nan_nan (x : float) : PrimFloat.is_nan x = true → x = nan.
Proof.
  unfold PrimFloat.is_nan. rewrite FloatAxioms.eqb_spec. intros Hx.
  rewrite <-(SF2Prim_Prim2SF x).
  destruct (Prim2SF x) as [s| s| |s m e]; try (by destruct s); [done|].
  exfalso. unfold SFeqb, SFcompare in Hx.
  rewrite Z.compare_refl in Hx.
  destruct s; simpl in Hx; by rewrite Pos.compare_cont_refl in Hx.
Qed.

Lemma infinity_not_below (x : float) : (infinity <? x) = false.
Proof.
  rewrite FloatAxioms.ltb_spec.
  change (Prim2SF infinity) with (S754_infinity false).
  by destruct (Prim2SF x) as [s| s| |s m e]; try destruct s.
Qed.

Lemma neg_infinity_not_above (x : float) : (x <? neg_infinity) = false.
Proof.
  rewrite FloatAxioms.ltb_spec.
  change (Prim2SF neg_infinity) with (S754_infinity true).
  by destruct (Prim2SF x) as [s| s| |s m e]; try destruct s.
Qed.

(** X6: for a column with the single value [x], the minimum, the maximum,
    the median, the three quartiles and the two percentiles are [x], and
    the standard deviation is 0. *)
Theorem single_value_stats (x : float) :
  ∃ st, computeNumericStats [x] = Some st
        ∧ NumericStats.min st = x ∧ NumericStats.max st = x
        ∧ NumericStats.median st = x
        ∧ NumericStats.quartiles st = (x, x, x)
        ∧ NumericStats.stddev st = 0
        ∧ NumericStats.percentiles st = [(10%nat, x); (90%nat, x)].
Proof.
  eexists. split; [reflexivity|].
  cbn [NumericStats.min NumericStats.max NumericStats.median
       NumericStats.quartiles NumericStats.stddev NumericStats.percentiles].
  rewrite sortNumbers_singleton.
  split_and!; try (vm_compute; reflexivity).
  - unfold Number.Math_min, Number.min2. cbn [foldl].
    change (PrimFloat.is_nan infinity) with false. cbn [orb].
    destruct (PrimFloat.is_nan x) eqn:Hnan; [symmetry; by apply is_nan_nan|].
    rewrite infinity_not_below.
    change (PrimFloat.get_sign infinity) with false.
    by destruct (x <? infinity).
  - unfold Number.Math_max, Number.max2. cbn [foldl].
    change (PrimFloat.is_nan neg_infinity) with false. cbn [orb].
    destruct (PrimFloat.is_nan x) eqn:Hnan; [symmetry; by apply is_nan_nan|].
    rewrite neg_infinity_not_above.
    change (PrimFloat.get_sign neg_infinity) with true.
    by destruct (neg_infinity <? x).
Qed.
End OneValue.

(** ** Missingness *)

Section Missingness.
Context `{Builtins}.

(** X7: the missingness rates have a property for the names for which
    [columnStats] has one, also above the cap on the pairs; the rate of a
    column is [(rowCount - present) / rowCount] with the [present] of its
    entry in [columnStats]. *)
Theorem missing_rates (data : list Row) (options : ProfileOptions.t)
    (mp : MissingnessPatterns) :
  missingnessPatterns (profile data options) = Some mp →
  ∀ col,
    perColumnRates mp !! col
    = (λ s, (Number.of_nat (rowCount (profile data options))
             - Number.of_nat (present s))
            / Number.of_nat (rowCount (profile data options)))%float
      <$> columnStats (profile data options) !! col.
Proof.
  intros Hmp col. rewrite columnStats_lookup. revert Hmp.
  destruct data as [|row0 data0]; [done|].
  rewrite profile_nonempty by done. cbv zeta.
  cbn [missingnessPatterns columns rowCount].
  set (data := row0 :: data0). set (cols := columnsOf data).
  destruct (ProfileOptions.missingnessPatterns options); [|done].
  intros [= <-]. unfold computeMissingPatterns. cbn [perColumnRates].
  rewrite lookup_ownProperties,
    (lookup_foldl_insert
       (λ c, (Number.of_nat (length data)
              - Number.of_nat
                  (length (filter (λ row, presentIn c row) data)))
             / Number.of_nat (length data))%float).
  destruct (decide (col = "__proto__")) as [->|Hne].
  { by rewrite decide_False by (by intros [_ ?]). }
  destruct (decide (col ∈ cols)) as [Hin|Hnin].
  - rewrite decide_True by done. simpl. unfold columnStat. cbn [present].
    by rewrite nonMissingValues_length.
  - by rewrite decide_False by (by intros [? _]).
Qed.

Lemma elem_of_pairCounts (cols : list string) (data : list Row)
    (c1 c2 : string) (n : nat) :
  ((c1, c2), n)
  ∈ omap (λ '(c1, c2),
            let count :=
              length (filter (λ row, negb (presentIn c1 row)
                                     && negb (presentIn c2 row)) data) in
            if (0 <? count)%nat then Some ((c1, c2), count) else None)
         (pairsAfter cols)
  ↔ (c1, c2) ∈ pairsAfter cols ∧ n = coMissing data c1 c2 ∧ 0 < n.
Proof.
  rewrite list_elem_of_omap. unfold coMissing. split.
  - intros ([x y] & Hin & Hsome). cbv zeta in Hsome.
    destruct (0 <? _)%nat eqn:Hpos; [|done].
    injection Hsome as -> -> <-. apply Nat.ltb_lt in Hpos. done.
  - intros (Hin & -> & Hpos). exists (c1, c2). split; [done|].
    cbv zeta. by apply Nat.ltb_lt in Hpos as ->.
Qed.

(** X8: the list of co-missing pairs has at most 10 entries, in descending
    order of count; an entry is a pair of distinct columns, the one that
    sorts first in the first place, with the number of rows in which both
    are missing, which is positive; no pair left out of the list has a
    higher count than an entry, and with at most 50 columns a pair with a
    positive count is left out only when the list is full.  A column is
    missing in a row when [col in row] fails or the read gives [undefined]
    or [null]; a column named like a member of [Object.prototype] is
    missing in no row that lacks the property. *)
Theorem co_missing_pairs (data : list Row) (options : ProfileOptions.t)
    (mp : MissingnessPatterns) :
  missingnessPatterns (profile data options) = Some mp →
  length (topCoMissingPairs mp) ≤ 10
  ∧ StronglySorted (λ a b, b.2 ≤ a.2) (topCoMissingPairs mp)
  ∧ (∀ c1 c2 n, ((c1, c2), n) ∈ topCoMissingPairs mp →
       c1 ∈ columns (profile data options)
       ∧ c2 ∈ columns (profile data options)
       ∧ String.ltb c1 c2 = true
       ∧ n = coMissing data c1 c2 ∧ 0 < n)
  ∧ (∀ c1 c2,
       c1 ∈ columns (profile data options) →
       c2 ∈ columns (profile data options) →
       String.ltb c1 c2 = true →
       0 < coMissing data c1 c2 →
       (c1, c2) ∉ (topCoMissingPairs mp).*1 →
       (∀ entry, entry ∈ topCoMissingPairs mp →
                 coMissing data c1 c2 ≤ entry.2)
       ∧ (length (columns (profile data options)) ≤ 50 →
          length (topCoMissingPairs mp) = 10)).
Proof.
  destruct data as [|row0 data0]; [done|].
  rewrite profile_nonempty by done. cbv zeta.
  cbn [missingnessPatterns columns].
  generalize (length (row0 :: data0)). intros rows.
  set (data := row0 :: data0). set (cols := columnsOf data).
  destruct (ProfileOptions.missingnessPatterns options); [|done].
  intros [= <-]. unfold computeMissingPatterns. cbn [topCoMissingPairs].
  destruct (length cols <=? 50)%nat eqn:Hcap.
  - set (pairCounts := omap _ (pairsAfter cols)).
    set (sorted := Array_sort (λ a b : string * string * nat, b.2 <? a.2)
                     pairCounts).
    assert (sorted ≡ₚ pairCounts) as Hperm by apply Array_sort_Permutation.
    assert (StronglySorted (λ a b : string * string * nat, b.2 ≤ a.2) sorted)
      as Hsorted by apply (Array_sort_descending snd).
    assert (∀ c1 c2 n, ((c1, c2), n) ∈ sorted
              ↔ (c1 ∈ cols ∧ c2 ∈ cols ∧ String.ltb c1 c2 = true)
                ∧ n = coMissing data c1 c2 ∧ 0 < n) as Hin.
    { intros c1 c2 n. rewrite Hperm. unfold pairCounts.
      rewrite elem_of_pairCounts, elem_of_pairsAfter;
        [done|apply sorted_columnsOf|apply NoDup_columnsOf]. }
    split_and!.
    + rewrite length_take. lia.
    + by apply (take_sorted_descending snd).
    + intros c1 c2 n Hn%elem_of_take_subseteq. apply Hin in Hn. tauto.
    + intros c1 c2 Hc1 Hc2 Hlt Hpos Hnot.
      assert (((c1, c2), coMissing data c1 c2) ∈ sorted) as Hs
        by (by apply Hin).
      rewrite <-(take_drop 10 sorted) in Hs, Hsorted.
      apply elem_of_app in Hs as [Hs|Hs].
      { exfalso. apply Hnot, list_elem_of_fmap.
        by exists ((c1, c2), coMissing data c1 c2). }
      split.
      * intros entry Hentry.
        by apply (StronglySorted_app_1_elem_of _ _ _ _ _ Hsorted Hentry Hs).
      * intros _. rewrite length_take.
        assert (10 < length sorted); [|lia].
        destruct (decide (10 < length sorted)) as [|Hle]; [done|].
        rewrite drop_ge in Hs by lia. by apply elem_of_nil in Hs.
  - apply Nat.leb_gt in Hcap. split_and!.
    + simpl. lia.
    + constructor.
    + intros c1 c2 n Hn. by apply elem_of_nil in Hn.
    + intros c1 c2 _ _ _ _ _. split.
      * intros entry Hentry. by apply elem_of_nil in Hentry.
      * lia.
Qed.
End Missingness.

(** ** Outliers and entropy *)

Section PerColumnComponents.
Context `{Builtins}.

Lemma fold_counts_bound {A : Type} (step : nat * nat → A → nat * nat) :
  (∀ c x, (step c x).1 ≤ S c.1 ∧ (step c x).2 ≤ S c.2) →
  ∀ nums c,
    (foldl step c nums).1 ≤ c.1 + length nums
    ∧ (foldl step c nums).2 ≤ c.2 + length nums.
Proof.
  intros Hstep nums. induction nums as [|x nums IH]; intros c; simpl; [lia|].
  destruct (IH (step c x)) as [IH1 IH2]. destruct (Hstep c x). lia.
Qed.

(** The entries of [computeOutliers]: one for every listed column with
    numeric statistics, but for a column named ['__proto__'], with counts
    bounded by the number of values. *)
Lemma computeOutliers_entries (cols : list string)
    (columnStats : gmap string ColumnStat)
    (colValues : gmap string (list value)) (col : string) :
  (is_Some (computeOutliers cols columnStats colValues !! col)
   ↔ col ∈ cols ∧ col ≠ "__proto__"
     ∧ is_Some (numericStats (statOf columnStats col)))
  ∧ ∀ o, computeOutliers cols columnStats colValues !! col = Some o →
      tukeyCount o ≤ length (default [] (colValues !! col))
      ∧ zscoreCount o ≤ length (default [] (colValues !! col)).
Proof.
  unfold computeOutliers. rewrite lookup_ownProperties.
  destruct (decide (col = "__proto__")) as [->|Hproto].
  { split; [|done]. split; [by intros [? ?]|by intros (_ & ? & _)]. }
  match goal with
  | |- (is_Some ?written ↔ _) ∧ ?bounds =>
      enough ((is_Some written
               ↔ col ∈ cols ∧ is_Some (numericStats (statOf columnStats col)))
              ∧ bounds) as [Hdom Hcount];
        [split; [rewrite Hdom; tauto|exact Hcount]|]
  end.
  induction cols as [|c cols [IHdom IHcount]] using rev_ind.
  - simpl. rewrite lookup_empty. split; [|done].
    split; [by intros [? ?]|by intros [?%elem_of_nil _]].
  - rewrite foldl_snoc. set (out := foldl _ ∅ cols) in *.
    rewrite elem_of_app, list_elem_of_singleton.
    destruct (numericStats (statOf columnStats c)) as [stat|] eqn:Hc.
    + destruct (decide (col = c)) as [->|Hne].
      * rewrite lookup_insert_eq, Hc. split; [split; eauto|].
        intros o [= <-]. cbn [tukeyCount zscoreCount].
        rewrite <-(length_map asNumber).
        match goal with
        | |- (foldl ?step ?start ?nums).1 ≤ _ ∧ _ =>
            assert (∀ acc x, (step acc x).1 ≤ S acc.1 ∧ (step acc x).2 ≤ S acc.2)
              as Hstep
              by (intros counts x; simpl; split; repeat case_match; lia);
            destruct (fold_counts_bound step Hstep nums start)
        end.
        simpl in *. lia.
      * rewrite lookup_insert_ne by done. split; [|done].
        rewrite IHdom. split; [intros [? ?]; by eauto|].
        by intros [[?|?] ?].
    + split; [|done]. rewrite IHdom. split; [intros [? ?]; by eauto|].
      intros [[?| ->] Hs]; [done|]. rewrite Hc in Hs. by destruct Hs.
Qed.

(** X9: [outliers] has an entry exactly for the columns with numeric
    statistics, and neither count of an entry exceeds the number of values
    present in the column. *)
Theorem outliers_entries (data : list Row) (options : ProfileOptions.t)
    (out : gmap string Outliers) :
  outliers (profile data options) = Some out →
  ∀ col,
    (is_Some (out !! col)
     ↔ ∃ s, columnStats (profile data options) !! col = Some s
            ∧ is_Some (numericStats s))
    ∧ ∀ o s, out !! col = Some o →
        columnStats (profile data options) !! col = Some s →
        tukeyCount o ≤ present s ∧ zscoreCount o ≤ present s.
Proof.
  intros Hout col. rewrite !columnStats_lookup. revert Hout.
  destruct data as [|row0 data0]; [done|].
  rewrite profile_nonempty by done. cbv zeta. cbn [outliers columns].
  generalize (length (row0 :: data0)). intros n.
  set (data := row0 :: data0). set (cols := columnsOf data).
  destruct (ProfileOptions.outliers options); [|done].
  intros [= <-].
  destruct (computeOutliers_entries cols
              (columnScan cols data n).1
              (columnScan cols data n).2 col) as [Hdom Hcount].
  unfold statOf in Hdom. rewrite columnScan_stats in Hdom.
  rewrite columnScan_values in Hcount.
  split.
  - rewrite Hdom. clear Hdom Hcount.
    destruct (decide (col ∈ cols ∧ col ≠ "__proto__")) as [[Hin Hne]|Hnot].
    + rewrite decide_True by done.
      split; [intros (_ & _ & ?); by eauto|]. intros (s & [= <-] & ?). done.
    + split; [intros (? & ? & _); by destruct Hnot|]. by intros (s & ? & _).
  - intros o s Ho.
    destruct (decide (col ∈ cols ∧ col ≠ "__proto__")) as [[Hin Hne]|];
      [|done].
    intros [= <-]. rewrite decide_True in Hcount by done.
    apply Hcount in Ho. unfold columnStat. cbn [present]. done.
Qed.

(** The entries of [computeCatEntropy]: one for every listed column with
    categorical statistics, but for a column named ['__proto__']. *)
Lemma computeCatEntropy_entries (cols : list string)
    (columnStats : gmap string ColumnStat) (data : list Row) (col : string) :
  is_Some (computeCatEntropy cols columnStats data !! col)
  ↔ col ∈ cols ∧ col ≠ "__proto__"
    ∧ is_Some (categoricalStats (statOf columnStats col)).
Proof.
  unfold computeCatEntropy. rewrite lookup_ownProperties.
  destruct (decide (col = "__proto__")) as [->|Hproto].
  { split; [by intros [? ?]|by intros (_ & ? & _)]. }
  match goal with
  | |- is_Some ?written ↔ _ =>
      enough (is_Some written
              ↔ col ∈ cols
                ∧ is_Some (categoricalStats (statOf columnStats col)))
        as Hdom; [rewrite Hdom; tauto|]
  end.
  induction cols as [|c cols IH] using rev_ind.
  - simpl. rewrite lookup_empty.
    split; [by intros [? ?]|by intros [?%elem_of_nil _]].
  - rewrite foldl_snoc. set (ce := foldl _ ∅ cols) in *.
    rewrite elem_of_app, list_elem_of_singleton.
    destruct (categoricalStats (statOf columnStats c)) as [stat|] eqn:Hc.
    + destruct (decide (col = c)) as [->|Hne].
      * rewrite lookup_insert_eq, Hc. split; eauto.
      * rewrite lookup_insert_ne by done.
        rewrite IH. split; [intros [? ?]; by eauto|].
        by intros [[?|?] ?].
    + rewrite IH. split; [intros [? ?]; by eauto|].
      intros [[?| ->] Hs]; [done|]. rewrite Hc in Hs. by destruct Hs.
Qed.

(** X10: [categoricalEntropy] has an entry exactly for the columns with
    categorical statistics. *)
Theorem entropy_entries (data : list Row) (options : ProfileOptions.t)
    (ce : gmap string CatEntropy) :
  categoricalEntropy (profile data options) = Some ce →
  ∀ col,
    is_Some (ce !! col)
    ↔ ∃ s, columnStats (profile data options) !! col = Some s
           ∧ is_Some (categoricalStats s).
Proof.
  intros Hce col. rewrite columnStats_lookup. revert Hce.
  destruct data as [|row0 data0]; [done|].
  rewrite profile_nonempty by done. cbv zeta.
  cbn [categoricalEntropy columns].
  generalize (length (row0 :: data0)). intros n.
  set (data := row0 :: data0). set (cols := columnsOf data).
  destruct (ProfileOptions.categoricalEntropy options); [|done].
  intros [= <-]. rewrite computeCatEntropy_entries.
  unfold statOf. rewrite columnScan_stats.
  destruct (decide (col ∈ cols ∧ col ≠ "__proto__")) as [[Hin Hne]|Hnot].
  - rewrite decide_True by done.
    split; [intros (_ & _ & ?); by eauto|]. intros (s & [= <-] & ?). done.
  - split; [intros (? & ? & _); by destruct Hnot|]. by intros (s & ? & _).
Qed.
End PerColumnComponents.

(** ** Candidate keys and dependencies *)

Section SetFromFacts.
Context {A : Type} (same : A → A → bool).

Lemma Set_from_snoc (l : list A) (y : A) :
  Set_from same (l ++ [y]) = Set_add same (Set_from same l) y.
Proof. unfold Set_from. by rewrite foldl_snoc. Qed.

Lemma Set_from_length_le (l : list A) : length (Set_from same l) ≤ length l.
Proof.
  induction l as [|y l IH] using rev_ind; [done|].
  rewrite Set_from_snoc, length_app. unfold Set_add.
  destruct (Set_has same (Set_from same l) y); [lia|].
  rewrite length_app. simpl. lia.
Qed.

Lemma Set_from_full_id (l : list A) :
  length (Set_from same l) = length l → Set_from same l = l.
Proof.
  induction l as [|z l IH] using rev_ind; [done|].
  rewrite Set_from_snoc. unfold Set_add.
  pose proof (Set_from_length_le l) as Hle.
  destruct (Set_has same (Set_from same l) z).
  - rewrite length_app. simpl. lia.
  - rewrite !length_app. simpl. intros Hfull. rewrite IH by lia. done.
Qed.

(** No element is dropped from the set exactly when no element is the
    same as an earlier one. *)
Lemma Set_from_length_full (l : list A) :
  length (Set_from same l) = length l
  ↔ ∀ i j x y, i < j → l !! i = Some x → l !! j = Some y → same y x = false.
Proof.
  induction l as [|y l IH] using rev_ind.
  - split; [|done]. intros _ i j x y _ Hi. by rewrite lookup_nil in Hi.
  - rewrite Set_from_snoc, length_app. unfold Set_add.
    pose proof (Set_from_length_le l) as Hle.
    destruct (Set_has same (Set_from same l) y) eqn:Hhas.
    + split; [simpl; lia|]. intros Hall. exfalso.
      assert (length (Set_from same l) = length l) as Hfull.
      { apply IH. intros i j x z Hij Hi Hj. apply (Hall i j); [done|..];
          by apply lookup_app_l_Some. }
      rewrite (Set_from_full_id l Hfull) in Hhas. unfold Set_has in Hhas.
      apply existsb_exists in Hhas as (x & Hx & Hsame).
      apply list_elem_of_In, list_elem_of_lookup in Hx as [i Hi].
      rewrite (Hall i (length l) x y) in Hsame; [done| |..].
      * by eapply lookup_lt_Some.
      * by apply lookup_app_l_Some.
      * by rewrite lookup_app_r, Nat.sub_diag.
    + rewrite length_app. simpl. split.
      * intros Hfull i j x z Hij Hi Hj.
        assert (length (Set_from same l) = length l) as Hfull' by lia.
        destruct (decide (j < length l)) as [Hjl|Hjl].
        -- rewrite lookup_app_l in Hi by lia. rewrite lookup_app_l in Hj by lia.
           by apply (proj1 IH Hfull' i j).
        -- assert (j = length l) as ->.
           { apply lookup_lt_Some in Hj. rewrite length_app in Hj.
             simpl in Hj. lia. }
           rewrite lookup_app_r, Nat.sub_diag in Hj by lia.
           injection Hj as <-. rewrite lookup_app_l in Hi by lia.
           rewrite (Set_from_full_id l Hfull') in Hhas.
           unfold Set_has in Hhas.
           destruct (same y x) eqn:Hsame; [|done].
           assert (existsb (same y) l = true) as Hex; [|congruence].
           apply existsb_exists. exists x. split; [|done].
           by eapply list_elem_of_In, list_elem_of_lookup_2.
      * intros Hall. f_equal. apply IH.
        intros i j x z Hij Hi Hj. apply (Hall i j); [done|..];
          by apply lookup_app_l_Some.
Qed.
End SetFromFacts.

Lemma filter_length_full {A : Type} (P : A → Prop) `{∀ x, Decision (P x)}
    (l : list A) :
  length (filter P l) = length l ↔ Forall P l.
Proof.
  induction l as [|x l IH]; [by split; [constructor|]|].
  rewrite filter_cons. pose proof (length_filter P l) as Hle.
  destruct (decide (P x)); simpl.
  - rewrite Forall_cons, <-IH. split; [intros [=]; done|intros [_ ->]; done].
  - split; [lia|]. by intros [? _]%Forall_cons.
Qed.

Lemma filter_Forall_id {A : Type} (P : A → Prop) `{∀ x, Decision (P x)}
    (l : list A) :
  Forall P l → filter P l = l.
Proof.
  induction 1 as [|x l Hx _ IH]; [done|].
  by rewrite filter_cons, decide_True, IH.
Qed.

Section Keys.
Context `{Builtins}.

Lemma foldl_push_if {A : Type} (p : A → bool) (l acc : list A) :
  foldl (λ acc c, if p c then (acc ++ [c])%list else acc) acc l
  = (acc ++ List.filter p l)%list.
Proof.
  revert acc. induction l as [|c l IH]; intros acc; simpl.
  - by rewrite app_nil_r.
  - rewrite IH. destruct (p c); [|done]. by rewrite <-app_assoc.
Qed.

Lemma keyScan_unique (cols : list string) (data : list Row) (n : nat) :
  (keyScan cols data n).2
  = List.filter
      (λ c, (length (nonMissingValues data c) =? n)%nat
            && (length (Set_from sameValueZero (nonMissingValues data c))
                =? n)%nat)
      cols.
Proof.
  unfold keyScan.
  rewrite (foldl_pair_snd
             (λ m c, <[c := nonMissingValues data c]> m)
             (λ uniqueCols c,
                if (length (nonMissingValues data c) =? n)%nat
                   && (length (Set_from sameValueZero (nonMissingValues data c))
                       =? n)%nat
                then (uniqueCols ++ [c])%list else uniqueCols)).
  by rewrite foldl_push_if.
Qed.

(** A column has a value in every row exactly when none is filtered out. *)
Lemma nonMissingValues_full (data : list Row) (col : string) :
  length (nonMissingValues data col) = length data
  ↔ ∀ row, row ∈ data → notMissing (get row col) = true.
Proof.
  unfold nonMissingValues.
  rewrite <-(length_map (λ row, get_in row col) data).
  rewrite filter_length_full, Forall_fmap, Forall_forall.
  split; intros Hall row Hrow; specialize (Hall row Hrow); simpl in *.
  - rewrite get_in_get in Hall. by apply Is_true_true.
  - rewrite get_in_get. by apply Is_true_true.
Qed.

Lemma nonMissingValues_all (data : list Row) (col : string) :
  (∀ row, row ∈ data → notMissing (get row col) = true) →
  nonMissingValues data col = map (λ row, get row col) data.
Proof.
  intros Hall. unfold nonMissingValues. rewrite filter_Forall_id.
  - apply list_fmap_ext. intros. apply get_in_get.
  - apply Forall_fmap, Forall_forall. intros row Hrow. simpl.
    rewrite get_in_get. by apply Is_true_true, Hall.
Qed.

(** X11: with at most 20 columns, the candidate keys are the one-column
    lists of the columns for which the read [row[col]] gives a value other
    than [undefined] and [null] in every row, be it a property of the
    record or a member of [Object.prototype], and gives the same value
    ([Set] equality) in no two rows. *)
Theorem candidate_keys (data : list Row) (options : ProfileOptions.t)
    (kd : KeysAndDependencies) :
  keysAndDependencies (profile data options) = Some kd →
  length (columns (profile data options)) ≤ 20 →
  ∀ key,
    key ∈ candidatePrimaryKeys kd
    ↔ ∃ col, key = [col] ∧ col ∈ columns (profile data options)
             ∧ (∀ row, row ∈ data → notMissing (get row col) = true)
             ∧ (∀ i j ri rj, i < j → data !! i = Some ri → data !! j = Some rj →
                  sameValueZero (get rj col) (get ri col) = false).
Proof.
  destruct data as [|row0 data0]; [done|].
  rewrite profile_nonempty by done. cbv zeta.
  cbn [keysAndDependencies columns].
  set (data := row0 :: data0). set (cols := columnsOf data).
  destruct (ProfileOptions.keysDependencies options); [|done].
  intros [= <-] Hlen key. unfold computeKeysAndDeps.
  replace (20 <? length cols)%nat with false
    by (symmetry; apply Nat.ltb_ge; lia).
  cbv zeta. cbn [candidatePrimaryKeys].
  rewrite keyScan_unique, list_elem_of_fmap.
  assert (∀ col,
            (length (nonMissingValues data col) =? length data)%nat
            && (length (Set_from sameValueZero (nonMissingValues data col))
                =? length data)%nat = true
            ↔ (∀ row, row ∈ data → notMissing (get row col) = true)
              ∧ (∀ i j ri rj, i < j → data !! i = Some ri →
                   data !! j = Some rj →
                   sameValueZero (get rj col) (get ri col) = false))
    as Hcond.
  { intros col. rewrite andb_true_iff, !Nat.eqb_eq.
    rewrite nonMissingValues_full. split.
    - intros [Hall Hset]. split; [done|].
      rewrite (nonMissingValues_all data col Hall) in Hset.
      rewrite <-(length_map (λ row, get row col) data) in Hset.
      intros i j ri rj Hij Hi Hj.
      apply (proj1 (Set_from_length_full sameValueZero _) Hset i j);
        [done|by rewrite list_lookup_fmap, Hi|by rewrite list_lookup_fmap, Hj].
    - intros [Hall Hdist]. split; [done|].
      rewrite (nonMissingValues_all data col Hall).
      rewrite <-(length_map (λ row, get row col) data).
      apply Set_from_length_full.
      intros i j x y Hij Hi Hj. rewrite list_lookup_fmap in Hi, Hj.
      destruct (data !! i) as [ri|] eqn:Hri; [|done].
      destruct (data !! j) as [rj|] eqn:Hrj; [|done].
      simplify_eq/=. by eapply Hdist. }
  split.
  - intros (col & -> & Hin). exists col. split; [done|].
    apply list_elem_of_In, filter_In in Hin as [Hcol Hc].
    split; [by apply list_elem_of_In|]. by apply Hcond.
  - intros (col & -> & Hcol & Hc). exists col. split; [done|].
    apply list_elem_of_In, filter_In. split; [by apply list_elem_of_In|].
    by apply Hcond.
Qed.
End Keys.

Lemma gmap_size_two_inv {V : Type} (m : gmap string V) :
  1 < size m → ∃ k1 k2, k1 ≠ k2 ∧ is_Some (m !! k1) ∧ is_Some (m !! k2).
Proof.
  intros Hsize. rewrite <-length_map_to_list in Hsize.
  pose proof (NoDup_fst_map_to_list m) as Hnd.
  assert (∀ kv, kv ∈ map_to_list m → is_Some (m !! kv.1)) as Hin.
  { intros [k v] Hkv%elem_of_map_to_list. by exists v. }
  destruct (map_to_list m) as [|[k1 v1] [|[k2 v2] l]]; simpl in Hsize; [lia..|].
  exists k1, k2. split_and!.
  - csimpl in Hnd. apply NoDup_cons in Hnd as [Hnotin _].
    intros ->. apply Hnotin. by left.
  - apply (Hin (k1, v1)). by left.
  - apply (Hin (k2, v2)). right. by left.
Qed.

Section Dependencies.
Context `{Builtins}.

(** X12: every reported dependency is a pair of two different columns
    whose determinant is not a candidate key and takes at least two
    values (as strings), and in which rows that agree on the determinant
    agree on the dependent column wherever that one has a value.  The
    value of a column in a row is what the read [row[col]] gives, a member
    of [Object.prototype] included. *)
Theorem functional_dependency_sound (data : list Row)
    (options : ProfileOptions.t) (kd : KeysAndDependencies)
    (fd : FunctionalDependency) :
  keysAndDependencies (profile data options) = Some kd →
  fd ∈ functionalDependencies kd →
  ∃ a b,
    fd = {| from := [a]; to := b |}
    ∧ a ∈ columns (profile data options)
    ∧ b ∈ columns (profile data options)
    ∧ a ≠ b
    ∧ ([a] ∉ candidatePrimaryKeys kd)
    ∧ (∃ r1 r2, r1 ∈ data ∧ r2 ∈ data
                ∧ notMissing (get r1 a) = true ∧ notMissing (get r2 a) = true
                ∧ stringKey (get r1 a) ≠ stringKey (get r2 a))
    ∧ (∀ r1 r2, r1 ∈ data → r2 ∈ data →
                notMissing (get r1 a) = true → notMissing (get r2 a) = true →
                stringKey (get r1 a) = stringKey (get r2 a) →
                notMissing (get r1 b) = true → notMissing (get r2 b) = true →
                stringKey (get r1 b) = stringKey (get r2 b)).
Proof.
  destruct data as [|row0 data0]; [done|].
  rewrite profile_nonempty by done. cbv zeta.
  cbn [keysAndDependencies columns].
  generalize (length (row0 :: data0)). intros n.
  set (data := row0 :: data0). set (cols := columnsOf data).
  destruct (ProfileOptions.keysDependencies options); [|done].
  intros [= <-]. unfold computeKeysAndDeps.
  destruct (20 <? length cols)%nat; [by intros ?%elem_of_nil|].
  cbv zeta. cbn [functionalDependencies candidatePrimaryKeys].
  intros ([i a] & Hfd & Hia)%list_elem_of_bind.
  apply (elem_of_lookup_imap_1 pair) in Hia as (i' & a' & [= <- <-] & Hi).
  destruct (length (default [] ((keyScan cols data n).1 !! a)) <? 2)%nat;
    [by apply elem_of_nil in Hfd|].
  apply list_elem_of_bind in Hfd as ([j b] & Hfd & Hjb).
  apply (elem_of_lookup_imap_1 pair) in Hjb as (j' & b' & [= <- <-] & Hj).
  destruct (i =? j)%nat eqn:Hij; [by apply elem_of_nil in Hfd|].
  destruct (existsb (String.eqb a) (keyScan cols data n).2) eqn:Hkey;
    [by apply elem_of_nil in Hfd|].
  destruct (isFD (fdGroups data a b)) eqn:Hisfd;
    [|by apply elem_of_nil in Hfd].
  destruct (1 <? size (fdGroups data a b))%nat eqn:Hsize;
    [|by apply elem_of_nil in Hfd].
  apply list_elem_of_singleton in Hfd as ->.
  destruct (fdGroups_spec data a b) as [Hdom Hset].
  exists a, b. split_and!.
  - done.
  - by eapply list_elem_of_lookup_2.
  - by eapply list_elem_of_lookup_2.
  - intros ->. apply Nat.eqb_neq in Hij. apply Hij.
    by apply (NoDup_lookup cols i j b); [apply NoDup_columnsOf|..].
  - intros (c & [= <-] & Hc)%list_elem_of_fmap.
    apply not_true_iff_false in Hkey. apply Hkey, existsb_exists.
    exists a. split; [by apply list_elem_of_In|apply String.eqb_refl].
  - apply Nat.ltb_lt, gmap_size_two_inv in Hsize
      as (k1 & k2 & Hne & Hk1 & Hk2).
    apply Hdom in Hk1 as (r1 & ? & ? & <-), Hk2 as (r2 & ? & ? & <-).
    by exists r1, r2.
  - intros r1 r2 Hr1 Hr2 Ha1 Ha2 Hk Hb1 Hb2.
    assert (is_Some (fdGroups data a b !! stringKey (get r1 a)))
      as [S HS] by (apply Hdom; eauto).
    pose proof (proj1 (isFD_true _) Hisfd _ _ HS) as Hle.
    apply (gset_size_le_1_inv S); [done|..].
    + apply (Hset _ _ _ HS). exists r1. by split_and!.
    + apply (Hset _ _ _ HS). exists r2. by split_and!.
Qed.

(** X13: a z-score count is formed only for a positive standard
    deviation: a numeric column whose standard deviation is zero, negative
    or NaN reports no z-score outlier. *)
Theorem zscore_needs_spread (data : list Row) (options : ProfileOptions.t)
    (out : gmap string Outliers) (col : string) (o : Outliers)
    (s : ColumnStat) (stat : NumericStats.t) :
  outliers (profile data options) = Some out →
  out !! col = Some o →
  columnStats (profile data options) !! col = Some s →
  numericStats s = Some stat →
  PrimFloat.ltb 0 (NumericStats.stddev stat) = false →
  zscoreCount o = 0.
Proof.
  destruct data as [|row0 data0]; [done|].
  rewrite profile_nonempty by done. cbv zeta.
  cbn [outliers columnStats].
  generalize (length (row0 :: data0)). intros n.
  set (data := row0 :: data0). set (cols := columnsOf data).
  destruct (ProfileOptions.outliers options); [|done].
  intros [= <-] Ho Hs Hstat Hsd.
  eapply zscore_guard; [exact Ho| |exact Hsd].
  rewrite lookup_ownProperties in Hs. case_decide; [done|].
  unfold statOf. by rewrite Hs.
Qed.
End Dependencies.

Section AssociationDispatch.
Context `{Builtins}.

Lemma getType_cases (stat : ColumnStat) :
  getType stat = "numeric" ∧ is_Some (numericStats stat)
  ∨ getType stat = "categorical" ∧ numericStats stat = None
    ∧ is_Some (categoricalStats stat)
  ∨ getType stat = "other" ∧ numericStats stat = None
    ∧ categoricalStats stat = None.
Proof.
  unfold getType.
  destruct (numericStats stat); [left; eauto|].
  destruct (categoricalStats stat); [right; left; eauto|by right; right].
Qed.

(** The estimator that the loop picks for a pair, by the types of the
    two columns. *)
Lemma associationValue_cases (columnStats : gmap string ColumnStat)
    (data : list Row) (c1 c2 : string) (v : float) :
  associationValue columnStats data c1 c2 = v →
  Number.isNaN v = false →
  let t1 := getType (statOf columnStats c1) in
  let t2 := getType (statOf columnStats c2) in
  t1 = "numeric" ∧ t2 = "numeric" ∧ v = pearsonFromData data c1 c2
  ∨ t1 = "categorical" ∧ t2 = "categorical" ∧ v = cramersVFromData data c1 c2
  ∨ t1 = "numeric" ∧ t2 = "categorical" ∧ v = etaSquaredFromData data c1 c2
  ∨ t1 = "categorical" ∧ t2 = "numeric" ∧ v = etaSquaredFromData data c2 c1.
Proof.
  unfold associationValue. cbv zeta.
  destruct (getType_cases (statOf columnStats c1))
    as [[-> _]|[(-> & _)|(-> & _)]],
    (getType_cases (statOf columnStats c2))
    as [[-> _]|[(-> & _)|(-> & _)]];
    cbn [String.eqb Ascii.eqb Bool.eqb andb orb];
    lazymatch goal with
    | |- nan = _ → _ => intros <- Hnan; by vm_compute in Hnan
    | |- _ => intros <- _
    end.
  - by left.
  - right; right; by left.
  - right; right; by right.
  - right; by left.
Qed.

Lemma computeAssociationMatrix_rows (cols : list string)
    (columnStats : gmap string ColumnStat) (data : list Row) (c : string) :
  StronglySorted String.le cols → NoDup cols → length cols ≤ 50 →
  is_Some (computeAssociationMatrix cols columnStats data !! c)
  ↔ c ∈ cols ∧ c ≠ "__proto__".
Proof.
  intros Hsorted Hnd Hlen. unfold computeAssociationMatrix.
  replace (50 <? length cols)%nat with false
    by (symmetry; apply Nat.ltb_ge; lia).
  destruct (association_loop cols columnStats data (pairsAfter cols))
    as [Hrows _].
  { intros x y. by apply elem_of_pairsAfter. }
  cbv zeta in Hrows. rewrite lookup_ownProperties.
  destruct (decide (c = "__proto__")) as [->|Hne].
  - split; [by intros [? ?]|by intros [_ ?]].
  - rewrite Hrows. tauto.
Qed.

(** A column named ['__proto__'], which a record can have from
    [JSON.parse], is a column of the summary, but the objects filled by
    assignment have no property of that name: the assignment runs the
    setter of [Object.prototype]. *)
Lemma proto_column_has_no_property :
  let r := profile protoTable allOptions in
  columns r = ["__proto__"; "a"]
  ∧ columnStats r !! "__proto__" = None
  ∧ (associationMatrix r ≫= (.!! "__proto__")) = None
  ∧ (associationMatrix r ≫= (.!! "a")) = Some ∅
  ∧ (missingnessPatterns r ≫= λ mp, perColumnRates mp !! "__proto__") = None
  ∧ (outliers r ≫= (.!! "__proto__")) = None
  ∧ sampleRows r
    = [ record [("a", VNumber 2)]; record [("a", VNumber 5)] ].
Proof. cbv zeta. split_and!; vm_compute; reflexivity. Qed.

(** X14: with at most 50 columns the matrix has one row per column, but
    for a column named ['__proto__'], and a cell between two columns
    [c1 < c2] holds Pearson's r for two numeric columns, Cramér's V for two
    categorical ones, and eta squared of the numeric column by the
    categorical one otherwise; a column with neither kind of statistics
    has no cell. *)
Theorem association_by_type (data : list Row) (options : ProfileOptions.t)
    (m : gmap string (gmap string float)) :
  associationMatrix (profile data options) = Some m →
  length (columns (profile data options)) ≤ 50 →
  (∀ c, is_Some (m !! c)
        ↔ c ∈ columns (profile data options) ∧ c ≠ "__proto__")
  ∧ ∀ c1 c2 v,
      String.ltb c1 c2 = true → cell m c1 c2 = Some v →
      let t1 := getType (statOf (columnStats (profile data options)) c1) in
      let t2 := getType (statOf (columnStats (profile data options)) c2) in
      t1 = "numeric" ∧ t2 = "numeric" ∧ v = pearsonFromData data c1 c2
      ∨ t1 = "categorical" ∧ t2 = "categorical"
        ∧ v = cramersVFromData data c1 c2
      ∨ t1 = "numeric" ∧ t2 = "categorical"
        ∧ v = etaSquaredFromData data c1 c2
      ∨ t1 = "categorical" ∧ t2 = "numeric"
        ∧ v = etaSquaredFromData data c2 c1.
Proof.
  destruct data as [|row data]; [done|].
  rewrite profile_nonempty by done. cbv zeta.
  cbn [associationMatrix columns columnStats].
  set (cols := columnsOf (row :: data)).
  set (stats := (columnScan cols (row :: data) (length (row :: data))).1).
  destruct (ProfileOptions.associationMatrix options); [|done].
  intros [= <-] Hlen. split.
  - intros c. apply computeAssociationMatrix_rows;
      [apply sorted_columnsOf|apply NoDup_columnsOf|done].
  - intros c1 c2 v Hlt Hcell.
    apply computeAssociationMatrix_cell in Hcell
      as (_ & _ & _ & Hc1 & Hc2 & Hv & Hnan);
      [|apply sorted_columnsOf|apply NoDup_columnsOf|done].
    unfold pairStatistic in Hv. rewrite Hlt in Hv.
    rewrite !statOf_ownProperties by done.
    by apply (associationValue_cases stats (row :: data) c1 c2 v).
Qed.
End AssociationDispatch.

Lemma length_omap_filter {A B : Type} (f : A → option B) (p : A → bool)
    (l : list A) :
  (∀ x, is_Some (f x) → p x = true) →
  length (omap f l) ≤ length (filter (λ x, p x) l).
Proof.
  intros Hfp. induction l as [|x l IH]; [done|].
  csimpl. rewrite filter_cons. destruct (f x) as [y|] eqn:Hfx; simpl.
  - rewrite decide_True by (apply Is_true_true, Hfp; by rewrite Hfx).
    simpl. lia.
  - destruct (decide (p x)); simpl; lia.
Qed.

Section AssociationOverlap.
Context `{Builtins}.

Lemma pearson_overlap (data : list Row) (c1 c2 : string) :
  Number.isNaN (pearsonFromData data c1 c2) = false →
  2 ≤ length (filter (λ row, notMissing (get row c1)
                             && notMissing (get row c2)) data).
Proof.
  intros Hnan.
  etrans; [|apply (length_omap_filter
                     (λ row, match get row c1, get row c2 with
                             | VNumber v1, VNumber v2 => Some (v1, v2)
                             | _, _ => None
                             end))].
  - fold (numberPairs data c1 c2).
    destruct (decide (length (numberPairs data c1 c2) < 2)) as [Hlt|]; [|lia].
    by rewrite pearson_needs_two_pairs in Hnan.
  - intros row [xy Hxy].
    destruct (get row c1) as [| |v1| | | |]; try done.
    by destruct (get row c2) as [| |v2| | | |].
Qed.

Lemma etaSquared_overlap (data : list Row) (numCol catCol : string) :
  Number.isNaN (etaSquaredFromData data numCol catCol) = false →
  2 ≤ length (filter (λ row, notMissing (get row numCol)
                             && notMissing (get row catCol)) data).
Proof.
  intros Hnan.
  etrans; [|apply (length_omap_filter
                     (λ row, match get row numCol with
                             | VNumber num =>
                                 if notMissing (get row catCol)
                                 then Some (toString (get row catCol), num)
                                 else None
                             | _ => None
                             end))].
  - fold (etaCells data numCol catCol).
    unfold etaSquaredFromData in Hnan. cbv zeta in Hnan.
    rewrite length_fmap in Hnan.
    destruct (length (etaCells data numCol catCol) <? 2)%nat eqn:Hlen;
      [done|].
    by apply Nat.ltb_ge in Hlen.
  - intros row [xy Hxy].
    destruct (get row numCol) as [| |v1| | | |]; try done.
    by destruct (notMissing (get row catCol)).
Qed.

Lemma cramersV_overlap (data : list Row) (cat1 cat2 : string) :
  Number.isNaN (cramersVFromData data cat1 cat2) = false →
  2 ≤ length (filter (λ row, notMissing (get row cat1)
                             && notMissing (get row cat2)) data).
Proof.
  intros Hnan.
  etrans; [|apply (length_omap_filter
                     (λ row,
                        if notMissing (get row cat1)
                           && notMissing (get row cat2)
                        then Some (toString (get row cat1),
                                   toString (get row cat2))
                        else None))].
  - fold (cramerCells data cat1 cat2).
    unfold cramersVFromData in Hnan. cbv zeta in Hnan.
    destruct (length (cramerCells data cat1 cat2) <? 2)%nat eqn:Hlen;
      [done|].
    by apply Nat.ltb_ge in Hlen.
  - intros row [xy Hxy].
    by destruct (notMissing (get row cat1) && notMissing (get row cat2)).
Qed.

Lemma filter_both_comm (data : list Row) (c1 c2 : string) :
  filter (λ row, notMissing (get row c2) && notMissing (get row c1)) data
  = filter (λ row, notMissing (get row c1) && notMissing (get row c2)) data.
Proof. apply list_filter_iff. intros row. by rewrite andb_comm. Qed.

(** X15: the matrix holds a value for two columns only when at least two
    rows have a value in both of them. *)
Theorem association_needs_two_rows (data : list Row)
    (options : ProfileOptions.t) (m : gmap string (gmap string float))
    (c1 c2 : string) (v : float) :
  associationMatrix (profile data options) = Some m →
  cell m c1 c2 = Some v →
  2 ≤ length (filter (λ row, notMissing (get row c1)
                             && notMissing (get row c2)) data).
Proof.
  destruct data as [|row data]; [done|].
  rewrite profile_nonempty by done. cbv zeta.
  cbn [associationMatrix].
  set (cols := columnsOf (row :: data)).
  set (stats := (columnScan cols (row :: data) (length (row :: data))).1).
  destruct (ProfileOptions.associationMatrix options); [|done].
  intros [= <-] Hcell.
  destruct (decide (length cols ≤ 50)) as [Hlen|Hlen].
  2:{ unfold computeAssociationMatrix in Hcell.
      replace (50 <? length cols)%nat with true in Hcell
        by (symmetry; apply Nat.ltb_lt; lia).
      unfold cell in Hcell. by rewrite lookup_empty in Hcell. }
  apply computeAssociationMatrix_cell in Hcell
    as (_ & _ & _ & _ & _ & Hv & Hnan);
    [|apply sorted_columnsOf|apply NoDup_columnsOf|done].
  unfold pairStatistic in Hv. symmetry in Hv.
  destruct (String.ltb c1 c2);
    destruct (associationValue_cases _ _ _ _ _ Hv Hnan)
      as [(_ & _ & ->)|[(_ & _ & ->)|[(_ & _ & ->)|(_ & _ & ->)]]].
  - by apply pearson_overlap.
  - by apply cramersV_overlap.
  - by apply etaSquared_overlap.
  - rewrite <-filter_both_comm. by apply etaSquared_overlap.
  - rewrite <-filter_both_comm. by apply pearson_overlap.
  - rewrite <-filter_both_comm. by apply cramersV_overlap.
  - rewrite <-filter_both_comm. by apply etaSquared_overlap.
  - by apply etaSquared_overlap.
Qed.
End AssociationOverlap.

Section MapKeys.
Context {V : Type}.
Implicit Types (m : list (string * V)) (k : string) (v : V).

Lemma elem_of_Map_set_keys m k v k' :
  k' ∈ (Map_set m k v).*1 ↔ k' ∈ m.*1 ∨ k' = k.
Proof.
  rewrite Map_set_keys. destruct (Map_get m k) as [w|] eqn:Hget.
  - split; [auto|]. intros [?| ->]; [done|].
    destruct (decide (k ∈ m.*1)) as [|Hnot]; [done|].
    apply Map_get_None in Hnot. congruence.
  - rewrite elem_of_app, list_elem_of_singleton. tauto.
Qed.

Lemma elem_of_Map_set m k v k' v' :
  (k', v') ∈ Map_set m k v → (k', v') ∈ m ∨ (k' = k ∧ v' = v).
Proof.
  induction m as [|[k0 v0] m IH]; simpl.
  - intros [= -> ->]%list_elem_of_singleton. by right.
  - destruct (String.eqb k k0).
    + intros [[= -> ->]|?]%elem_of_cons; [by right|]. left. by right.
    + intros [[= -> ->]|[?|?]%IH]%elem_of_cons; [left; by left| |by right].
      left. by right.
Qed.

Lemma Map_get_Some_elem_of m k v : Map_get m k = Some v → (k, v) ∈ m.
Proof.
  induction m as [|[k0 v0] m IH]; simpl; [done|].
  destruct (String.eqb_spec k k0) as [->|Hne].
  - intros [= ->]. by left.
  - intros ?%IH. by right.
Qed.
End MapKeys.

Lemma NoDup_single_length (l : list string) (k : string) :
  NoDup l → (∀ x, x ∈ l → x = k) → length l ≤ 1.
Proof.
  intros Hnd Hall. destruct l as [|x [|y l]]; simpl; [lia..|].
  apply NoDup_cons in Hnd as [Hx _]. exfalso. apply Hx.
  rewrite (Hall x), (Hall y); [by left|right; by left|by left].
Qed.

Section SingleValued.
Context `{Builtins}.

Lemma etaSquared_groups_keys (cells : list (string * float)) :
  let groups :=
    foldl (λ groups '(key, num),
             Map_set groups key (default [] (Map_get groups key) ++ [num])%list)
          [] cells in
  NoDup groups.*1 ∧ ∀ k, k ∈ groups.*1 → k ∈ cells.*1.
Proof.
  cbv zeta. induction cells as [|[key num] cells [IHnd IHin]] using rev_ind.
  - simpl. split; [constructor|done].
  - rewrite foldl_snoc, fmap_app. split.
    + by apply Map_set_keys_NoDup.
    + intros k [Hk| ->]%elem_of_Map_set_keys; apply elem_of_app;
        [left; by apply IHin|right; by left].
Qed.

Lemma elem_of_etaCells_key (data : list Row) (numCol catCol : string)
    (k : string) :
  k ∈ (etaCells data numCol catCol).*1 →
  ∃ row, row ∈ data ∧ notMissing (get row catCol) = true
         ∧ toString (get row catCol) = k.
Proof.
  intros ([k' x] & -> & Hin)%list_elem_of_fmap.
  apply list_elem_of_omap in Hin as (row & Hrow & Hcell).
  exists row. split; [done|].
  destruct (get row numCol) as [| |num| | | |]; try done.
  destruct (notMissing (get row catCol)); [|done].
  by injection Hcell as <- _.
Qed.

Lemma etaSquared_single_valued (data : list Row) (numCol catCol : string)
    (k : string) :
  (∀ row, row ∈ data → notMissing (get row catCol) = true →
          toString (get row catCol) = k) →
  etaSquaredFromData data numCol catCol = nan.
Proof.
  intros Hconst. unfold etaSquaredFromData. cbv zeta.
  destruct (etaSquared_groups_keys (etaCells data numCol catCol))
    as [Hnd Hin].
  set (groups := foldl _ [] (etaCells data numCol catCol)) in *.
  assert (length groups ≤ 1) as Hlen.
  { rewrite <-(length_fmap fst). apply (NoDup_single_length _ k); [done|].
    intros x (row & Hrow & Hm & <-)%Hin%elem_of_etaCells_key. by apply Hconst. }
  replace (length groups <? 2)%nat with true
    by (symmetry; apply Nat.ltb_lt; lia).
  by rewrite orb_true_r.
Qed.

Lemma elem_of_cramerCells (data : list Row) (cat1 cat2 : string)
    (k1 k2 : string) :
  (k1, k2) ∈ cramerCells data cat1 cat2 →
  ∃ row, row ∈ data
         ∧ notMissing (get row cat1) = true ∧ toString (get row cat1) = k1
         ∧ notMissing (get row cat2) = true ∧ toString (get row cat2) = k2.
Proof.
  intros (row & Hrow & Hcell)%list_elem_of_omap. exists row. split; [done|].
  destruct (notMissing (get row cat1)), (notMissing (get row cat2));
    try done.
  by injection Hcell as <- <-.
Qed.

(** The contingency table: its keys are first components of the cells,
    the keys of its inner maps second components, and neither repeats. *)
Lemma cramersV_contingency_keys (cells : list (string * string)) :
  let contingency : list (string * list (string * nat)) :=
    foldl (λ cont '(k1, k2),
             let m := default [] (Map_get cont k1) in
             Map_set cont k1 (Map_set m k2 (default 0 (Map_get m k2) + 1)))
          [] cells in
  NoDup contingency.*1
  ∧ (∀ k1, k1 ∈ contingency.*1 → k1 ∈ cells.*1)
  ∧ ∀ k1 m k2, (k1, m) ∈ contingency → k2 ∈ m.*1 → k2 ∈ cells.*2.
Proof.
  cbv zeta.
  induction cells as [|[k1 k2] cells (IHnd & IHrows & IHcols)] using rev_ind.
  - simpl. split_and!; [constructor|done|]. by intros ? ? ? ?%elem_of_nil.
  - rewrite foldl_snoc, !fmap_app. set (cont := foldl _ [] cells) in *.
    cbv zeta. split_and!.
    + by apply Map_set_keys_NoDup.
    + intros k [Hk| ->]%elem_of_Map_set_keys; apply elem_of_app;
        [left; by apply IHrows|right; by left].
    + intros k m x [Hm|[-> ->]]%elem_of_Map_set Hx; apply elem_of_app.
      * left. by eapply IHcols.
      * apply elem_of_Map_set_keys in Hx as [Hx| ->]; [left|right; by left].
        destruct (Map_get cont k1) as [m0|] eqn:Hget;
          [|by apply elem_of_nil in Hx].
        apply Map_get_Some_elem_of in Hget. by eapply IHcols.
Qed.

Lemma cramersV_cols (contingency : list (list (string * nat)))
    (start : list string) :
  let cols :=
    foldl (λ colsSet m, foldl (Set_add String.eqb) colsSet (m.*1))
          start contingency in
  (NoDup start → NoDup cols)
  ∧ ∀ c, c ∈ cols → c ∈ start ∨ ∃ m, m ∈ contingency ∧ c ∈ m.*1.
Proof.
  cbv zeta. revert start.
  induction contingency as [|m ms IH]; intros start; simpl.
  - split; [done|]. by left.
  - destruct (IH (foldl (Set_add String.eqb) start m.*1)) as [IHnd IHin].
    split.
    + intros Hnd. by apply IHnd, NoDup_Set_add_all.
    + intros c [[?|?]%elem_of_Set_add_all|(m' & ? & ?)]%IHin.
      * by left.
      * right. exists m. split; [by left|done].
      * right. exists m'. split; [by right|done].
Qed.

Lemma cramersV_single_valued_l (data : list Row) (cat1 cat2 : string)
    (k : string) :
  (∀ row, row ∈ data → notMissing (get row cat1) = true →
          toString (get row cat1) = k) →
  cramersVFromData data cat1 cat2 = nan.
Proof.
  intros Hconst. unfold cramersVFromData. cbv zeta.
  destruct (cramersV_contingency_keys (cramerCells data cat1 cat2))
    as (Hnd & Hrows & _).
  set (contingency := foldl _ [] (cramerCells data cat1 cat2)) in *.
  destruct (length (cramerCells data cat1 cat2) <? 2)%nat; [done|].
  assert (length contingency.*1 ≤ 1) as Hlen.
  { apply (NoDup_single_length _ k); [done|].
    intros x ([k1 k2] & -> & Hin)%Hrows%list_elem_of_fmap.
    apply elem_of_cramerCells in Hin as (row & ? & ? & <- & _).
    by apply Hconst. }
  match goal with
  | |- (if (?d <=? 0)%Z then _ else _) = _ =>
      replace (d <=? 0)%Z with true; [done|]
  end.
  symmetry. apply Z.leb_le. lia.
Qed.

Lemma cramersV_single_valued_r (data : list Row) (cat1 cat2 : string)
    (k : string) :
  (∀ row, row ∈ data → notMissing (get row cat2) = true →
          toString (get row cat2) = k) →
  cramersVFromData data cat1 cat2 = nan.
Proof.
  intros Hconst. unfold cramersVFromData. cbv zeta.
  destruct (cramersV_contingency_keys (cramerCells data cat1 cat2))
    as (_ & _ & Hcols).
  set (contingency := foldl _ [] (cramerCells data cat1 cat2)) in *.
  destruct (length (cramerCells data cat1 cat2) <? 2)%nat; [done|].
  destruct (cramersV_cols contingency.*2 []) as [Hnd Hin].
  set (cols := foldl _ [] contingency.*2) in *.
  assert (length cols ≤ 1) as Hlen.
  { apply (NoDup_single_length _ k); [apply Hnd; constructor|].
    intros x [?%elem_of_nil|(m & Hm & Hx)]%Hin; [done|].
    apply list_elem_of_fmap in Hm as ([k1 m'] & -> & Hm).
    apply (Hcols _ _ _ Hm) in Hx.
    apply list_elem_of_fmap in Hx as ([k1' k2] & -> & Hx).
    apply elem_of_cramerCells in Hx as (row & ? & _ & _ & ? & <-).
    by apply Hconst. }
  match goal with
  | |- (if (?d <=? 0)%Z then _ else _) = _ =>
      replace (d <=? 0)%Z with true; [done|]
  end.
  symmetry. apply Z.leb_le. lia.
Qed.

(** X16: a column without numeric statistics whose values all print the
    same has no cell in the association matrix. *)
Theorem single_valued_column_has_no_cell (data : list Row)
    (options : ProfileOptions.t) (m : gmap string (gmap string float))
    (c : string) (s : ColumnStat) (k : string) :
  associationMatrix (profile data options) = Some m →
  columnStats (profile data options) !! c = Some s →
  numericStats s = None →
  (∀ row, row ∈ data → notMissing (get row c) = true →
          toString (get row c) = k) →
  ∀ c2, cell m c c2 = None ∧ cell m c2 c = None.
Proof.
  destruct data as [|row data]; [done|].
  rewrite profile_nonempty by done. cbv zeta.
  cbn [associationMatrix columnStats].
  set (cols := columnsOf (row :: data)).
  set (stats := (columnScan cols (row :: data) (length (row :: data))).1).
  destruct (ProfileOptions.associationMatrix options); [|done].
  intros [= <-] Hs Hnum Hconst c2.
  destruct (decide (length cols ≤ 50)) as [Hlen|Hlen].
  2:{ unfold computeAssociationMatrix.
      replace (50 <? length cols)%nat with true
        by (symmetry; apply Nat.ltb_lt; lia).
      unfold cell. by rewrite !lookup_empty. }
  assert (getType (statOf stats c) ≠ "numeric") as Htype.
  { rewrite lookup_ownProperties in Hs. case_decide; [done|].
    unfold statOf, getType. rewrite Hs. simpl. rewrite Hnum.
    by destruct (categoricalStats s). }
  assert (∀ c1 c1' v,
            (c1 = c ∧ c1' = c2 ∨ c1 = c2 ∧ c1' = c) →
            associationValue stats (row :: data) c1 c1' = v →
            Number.isNaN v = false → False) as Hnan.
  { intros c1 c1' v Hc Hv Hnan.
    destruct (associationValue_cases _ _ _ _ _ Hv Hnan)
      as [(? & ? & _)|[(_ & _ & ->)|[(? & ? & ->)|(? & ? & ->)]]],
         Hc as [[-> ->]|[-> ->]]; try done.
    - by rewrite (cramersV_single_valued_l _ _ _ k) in Hnan.
    - by rewrite (cramersV_single_valued_r _ _ _ k) in Hnan.
    - by rewrite (etaSquared_single_valued _ _ _ k) in Hnan.
    - by rewrite (etaSquared_single_valued _ _ _ k) in Hnan. }
  split; apply eq_None_not_Some; intros [v Hcell];
    apply computeAssociationMatrix_cell in Hcell
      as (_ & _ & _ & _ & _ & Hv & Hv');
    try first [apply sorted_columnsOf|apply NoDup_columnsOf|done];
    unfold pairStatistic in Hv; symmetry in Hv;
    destruct (String.ltb _ _); refine (Hnan _ _ v _ Hv Hv'); auto.
Qed.
End SingleValued.

Lemma filter_none {A : Type} (P : A → Prop) `{∀ x, Decision (P x)}
    (l : list A) :
  (∀ x, x ∈ l → ¬ P x) → filter P l = [].
Proof.
  induction l as [|x l IH]; intros Hall; [done|].
  rewrite filter_cons, decide_False by (apply Hall; by left).
  apply IH. intros y Hy. apply Hall. by right.
Qed.

Section TailShare.
Context `{Builtins}.

(** The loop that adds up the counts of the values outside a list. *)
Lemma tailCount_shift (top : list string) (freq : list (string * nat))
    (start : nat) :
  foldl (λ tailCount vc,
           if negb (existsb (String.eqb vc.1) top)
           then tailCount + vc.2 else tailCount) start freq
  = start
    + foldl (λ tailCount vc,
               if negb (existsb (String.eqb vc.1) top)
               then tailCount + vc.2 else tailCount) 0 freq.
Proof.
  revert start. induction freq as [|[v n] freq IH]; intros start; simpl.
  - lia.
  - rewrite IH, (IH (if negb _ then _ else _)).
    destruct (negb (existsb (String.eqb v) top)); lia.
Qed.

Lemma tailCount_Map_set (top : list string) (freq : list (string * nat))
    (k : string) :
  foldl (λ tailCount vc,
           if negb (existsb (String.eqb vc.1) top)
           then tailCount + vc.2 else tailCount) 0
        (Map_set freq k (default 0 (Map_get freq k) + 1))
  = foldl (λ tailCount vc,
             if negb (existsb (String.eqb vc.1) top)
             then tailCount + vc.2 else tailCount) 0 freq
    + (if negb (existsb (String.eqb k) top) then 1 else 0).
Proof.
  induction freq as [|[v n] freq IH]; simpl.
  - destruct (negb (existsb (String.eqb k) top)); lia.
  - destruct (String.eqb_spec k v) as [->|Hne]; simpl.
    + rewrite tailCount_shift,
        (tailCount_shift top freq (if negb _ then 0 + n else 0)).
      destruct (negb (existsb (String.eqb v) top)); lia.
    + rewrite tailCount_shift, IH,
        (tailCount_shift top freq (if negb _ then 0 + n else 0)).
      destruct (negb (existsb (String.eqb v) top)); lia.
Qed.

(** The tail count is the number of values outside the list. *)
Lemma tailCount_frequencies (top : list string) (cats : list string) :
  foldl (λ tailCount vc,
           if negb (existsb (String.eqb vc.1) top)
           then tailCount + vc.2 else tailCount) 0 (frequencies cats)
  = length (filter (λ v, v ∉ top) cats).
Proof.
  induction cats as [|c cats IH] using rev_ind; [done|].
  rewrite frequencies_snoc, tailCount_Map_set, IH.
  rewrite filter_app, length_app, filter_cons, filter_nil. f_equal.
  destruct (existsb (String.eqb c) top) eqn:Hex; simpl.
  - apply existsb_exists in Hex as (x & Hx%list_elem_of_In & ->%String.eqb_eq).
    by rewrite decide_False by (by intros ?).
  - rewrite decide_True; [done|]. intros Hc.
    apply not_true_iff_false in Hex. apply Hex, existsb_exists.
    exists c. split; [by apply list_elem_of_In|apply String.eqb_refl].
Qed.

Lemma computeCatEntropy_tail (cols : list string)
    (columnStats : gmap string ColumnStat) (data : list Row) (col : string)
    (e : CatEntropy) :
  computeCatEntropy cols columnStats data !! col = Some e →
  ∃ catStat,
    categoricalStats (statOf columnStats col) = Some catStat
    ∧ tailShareOutsideTop10 e
      = (Number.of_nat
           (length (filter (λ v, v ∉ (CategoricalStats.top10 catStat).*1)
                           (map toString (nonMissingValues data col))))
         / Number.of_nat (length (nonMissingValues data col)))%float.
Proof.
  unfold computeCatEntropy. rewrite lookup_ownProperties.
  case_decide as Hproto; [done|]. revert e.
  induction cols as [|c cols IH] using rev_ind; intros e.
  - simpl. by rewrite lookup_empty.
  - rewrite foldl_snoc. set (ce := foldl _ ∅ cols) in *.
    destruct (categoricalStats (statOf columnStats c)) as [stat|] eqn:Hc;
      [|by apply IH].
    destruct (decide (col = c)) as [->|Hne].
    + rewrite lookup_insert_eq. intros [= <-]. exists stat. split; [done|].
      cbn [tailShareOutsideTop10].
      assert (filter (λ v, notMissing v) (map (λ row, get row c) data)
              = nonMissingValues data c) as ->.
      { unfold nonMissingValues. f_equal. apply list_fmap_ext.
        intros. symmetry. apply get_in_get. }
      by rewrite tailCount_frequencies, length_map.
    + rewrite lookup_insert_ne by done. by apply IH.
Qed.

(** X17: the tail share of a column is the number of its values outside
    the [top10] of its categorical statistics, divided by the number of
    values present; with at most 10 distinct values that number is 0. *)
Theorem entropy_tail_share (data : list Row) (options : ProfileOptions.t)
    (ce : gmap string CatEntropy) (col : string) (e : CatEntropy)
    (s : ColumnStat) (c : CategoricalStats.t) :
  categoricalEntropy (profile data options) = Some ce →
  ce !! col = Some e →
  columnStats (profile data options) !! col = Some s →
  categoricalStats s = Some c →
  let outside :=
    filter (λ v, v ∉ (CategoricalStats.top10 c).*1)
           (map toString (nonMissingValues data col)) in
  tailShareOutsideTop10 e
  = (Number.of_nat (length outside) / Number.of_nat (present s))%float
  ∧ (CategoricalStats.unique c ≤ 10 → outside = []).
Proof.
  intros Hce He Hs Hc. cbv zeta. split.
  - revert Hce He Hs Hc. rewrite columnStats_lookup.
    destruct data as [|row0 data0]; [done|].
    rewrite profile_nonempty by done. cbv zeta.
    cbn [categoricalEntropy columns].
    set (data := row0 :: data0). set (cols := columnsOf data).
    destruct (ProfileOptions.categoricalEntropy options); [|done].
    intros [= <-] He. case_decide as Hcol; [|done]. intros [= <-] Hc.
    apply computeCatEntropy_tail in He as (catStat & Hcat & ->).
    unfold statOf in Hcat.
    rewrite columnScan_stats, decide_True in Hcat by (by destruct Hcol).
    assert (Some catStat = Some c) as [= ->] by (rewrite <-Hcat; exact Hc).
    done.
  - intros Hunique. revert Hs Hc. rewrite columnStats_lookup.
    case_decide as Hcol; [|done]. intros [= <-] Hc.
    assert (is_Some (categoricalStats (columnStat data (length data) col)))
      as (_ & _ & Hcat)%columnStat_categorical by eauto.
    rewrite Hc in Hcat. symmetry in Hcat.
    set (cats := map toString (nonMissingValues data col)) in *.
    apply filter_none.
    unfold computeCategoricalStats in Hcat.
    destruct (length cats =? 0); [done|]. injection Hcat as <-.
    cbn [CategoricalStats.unique CategoricalStats.top10] in *.
    rewrite take_ge
      by (by rewrite (Permutation_length (Array_sort_Permutation _ _))).
    intros v Hv Hnot. apply Hnot.
    apply list_elem_of_fmap. exists (v, occurrences v cats). split; [done|].
    rewrite (Array_sort_Permutation _ _). by apply elem_of_frequencies.
Qed.
End TailShare.

Section NotANumber.
Context `{Builtins}.
Local Open Scope float_scope.

Lemma nan_of_spec (x : float) : Prim2SF x = S754_nan → x = nan.
Proof. intros Hx. by rewrite <-(SF2Prim_Prim2SF x), Hx. Qed.

Lemma add_nan_l (y : float) : nan + y = nan.
Proof. apply nan_of_spec. by rewrite FloatAxioms.add_spec. Qed.

Lemma add_nan_r (x : float) : x + nan = nan.
Proof.
  apply nan_of_spec. rewrite FloatAxioms.add_spec.
  change (Prim2SF nan) with S754_nan.
  by destruct (Prim2SF x) as [s| s| |s m e].
Qed.

Lemma sub_nan_r (x : float) : x - nan = nan.
Proof.
  apply nan_of_spec. rewrite FloatAxioms.sub_spec.
  change (Prim2SF nan) with S754_nan.
  by destruct (Prim2SF x) as [s| s| |s m e].
Qed.

Lemma div_nan_l (y : float) : nan / y = nan.
Proof. apply nan_of_spec. by rewrite FloatAxioms.div_spec. Qed.

(** [Math.min] and [Math.max] of arguments one of which is NaN. *)
Lemma Math_min_nan (nums : list float) :
  (∃ x, x ∈ nums ∧ PrimFloat.is_nan x = true) → Number.Math_min nums = nan.
Proof.
  unfold Number.Math_min. generalize infinity.
  induction nums as [|y nums IH] using rev_ind; intros start (x & Hx & Hnan).
  - by apply elem_of_nil in Hx.
  - rewrite foldl_snoc.
    apply elem_of_app in Hx as [Hx|Hx%list_elem_of_singleton].
    + rewrite IH by eauto. done.
    + subst y. unfold Number.min2. by rewrite Hnan, orb_true_r.
Qed.

Lemma Math_max_nan (nums : list float) :
  (∃ x, x ∈ nums ∧ PrimFloat.is_nan x = true) → Number.Math_max nums = nan.
Proof.
  unfold Number.Math_max. generalize neg_infinity.
  induction nums as [|y nums IH] using rev_ind; intros start (x & Hx & Hnan).
  - by apply elem_of_nil in Hx.
  - rewrite foldl_snoc.
    apply elem_of_app in Hx as [Hx|Hx%list_elem_of_singleton].
    + rewrite IH by eauto. done.
    + subst y. unfold Number.max2. by rewrite Hnan, orb_true_r.
Qed.

Lemma sum_nan (nums : list float) :
  (∃ x, x ∈ nums ∧ PrimFloat.is_nan x = true) → Number.sum nums = nan.
Proof.
  unfold Number.sum. generalize 0.
  induction nums as [|y nums IH] using rev_ind; intros start (x & Hx & Hnan).
  - by apply elem_of_nil in Hx.
  - rewrite foldl_snoc.
    apply elem_of_app in Hx as [Hx|Hx%list_elem_of_singleton].
    + rewrite IH by eauto. apply add_nan_l.
    + subst y. apply is_nan_nan in Hnan as ->. apply add_nan_r.
Qed.

Lemma squares_about_nan (nums : list float) (start : float) :
  nums ≠ [] →
  foldl (λ a x, a + Number.sq (x - nan)) start nums = nan.
Proof.
  destruct nums as [|y nums _] using rev_ind; [done|]. intros _.
  rewrite foldl_snoc, sub_nan_r. apply add_nan_r.
Qed.

(** X18: the values are not tested for NaN: with a NaN among them the
    minimum, the maximum and the mean are NaN, and so is the standard
    deviation when there are two values or more. *)
Theorem nan_value_poisons_stats (nums : list float) (st : NumericStats.t) :
  computeNumericStats nums = Some st →
  (∃ x, x ∈ nums ∧ PrimFloat.is_nan x = true) →
  NumericStats.min st = nan
  ∧ NumericStats.max st = nan
  ∧ NumericStats.mean st = nan
  ∧ ((1 < length nums)%nat → NumericStats.stddev st = nan).
Proof.
  unfold computeNumericStats.
  destruct (length nums =? 0)%nat eqn:Hlen; [done|].
  intros [= <-] Hnan.
  cbn [NumericStats.min NumericStats.max NumericStats.mean
       NumericStats.stddev].
  rewrite Math_min_nan, Math_max_nan, sum_nan, div_nan_l by done.
  split_and!; [done..|]. intros Hlen2.
  replace (1 <? length nums)%nat with true
    by (symmetry; by apply Nat.ltb_lt).
  rewrite squares_about_nan by (intros ->; simpl in Hlen2; lia).
  by rewrite div_nan_l.
Qed.
End NotANumber.

(** ** The properties on the tables of the tests *)

Lemma column_kinds_witness :
  let s := columnStat (H:=exampleHost) constructorTable 2 "constructor" in
  columnStats (profile (H:=exampleHost) constructorTable noOptions)
    !! "constructor" = Some s
  ∧ types s = ["number"; "function"]
  ∧ NoDup (types s)
  ∧ ("function" ∈ types s
     ↔ ∃ row, row ∈ constructorTable
              ∧ notMissing (get row "constructor") = true
              ∧ typeof (get row "constructor") = "function").
Proof.
  cbv zeta.
  assert (columnStats (profile (H:=exampleHost) constructorTable noOptions)
            !! "constructor"
          = Some (columnStat (H:=exampleHost) constructorTable 2
                    "constructor")) as Hs
    by (vm_compute; reflexivity).
  split; [exact Hs|]. split; [vm_compute; reflexivity|].
  destruct (column_kinds (H:=exampleHost) constructorTable noOptions
              "constructor" _ Hs) as (Hnd & Hkinds & _ & _).
  split; [exact Hnd|exact (Hkinds "function")].
Defined.

Lemma stats_for_single_kind_witness :
  let s := columnStat (H:=exampleHost) basicTable 3 "name" in
  columnStats (profile (H:=exampleHost) basicTable noOptions) !! "name"
  = Some s
  ∧ types s = ["string"]
  ∧ is_Some (categoricalStats s).
Proof.
  cbv zeta.
  assert (columnStats (profile (H:=exampleHost) basicTable noOptions)
            !! "name"
          = Some (columnStat (H:=exampleHost) basicTable 3 "name")) as Hs
    by (vm_compute; reflexivity).
  assert (types (columnStat (H:=exampleHost) basicTable 3 "name")
          = ["string"]) as Hk by (vm_compute; reflexivity).
  split; [exact Hs|]. split; [exact Hk|].
  destruct (stats_for_single_kind (H:=exampleHost) basicTable noOptions
              "name" _ Hs) as [_ Hcat].
  apply Hcat. left. exact Hk.
Defined.

Lemma categorical_top10_witness :
  let cats := ["Bob"; "Alice"; "Bob"] in
  ∃ c, computeCategoricalStats cats = Some c
       ∧ CategoricalStats.unique c = length (remove_dups cats)
       ∧ StronglySorted (λ a b, b.2 ≤ a.2) (CategoricalStats.top10 c).
Proof.
  cbv zeta. eexists. split; [vm_compute; reflexivity|].
  match goal with
  | |- CategoricalStats.unique ?c = _ ∧ _ =>
      destruct (categorical_top10 ["Bob"; "Alice"; "Bob"] c)
        as (Hunique & _ & _ & Hsorted & _); [vm_compute; reflexivity|]
  end.
  split; [exact Hunique|exact Hsorted].
Defined.

Lemma missing_rates_witness :
  let options := ProfileOptions.mk false false true false false in
  let r := profile (H:=exampleHost) basicTable options in
  let mp := computeMissingPatterns (columnsOf basicTable) basicTable 3 in
  missingnessPatterns r = Some mp
  ∧ perColumnRates mp !! "gender"
    = (λ s, (Number.of_nat (rowCount r) - Number.of_nat (present s))
            / Number.of_nat (rowCount r))%float
      <$> columnStats r !! "gender".
Proof.
  cbv zeta.
  set (options := ProfileOptions.mk false false true false false).
  set (mp := computeMissingPatterns (columnsOf basicTable) basicTable 3).
  assert (missingnessPatterns (profile (H:=exampleHost) basicTable options)
          = Some mp) as Hmp by (vm_compute; reflexivity).
  split; [exact Hmp|].
  exact (missing_rates (H:=exampleHost) basicTable options mp Hmp "gender").
Defined.

Lemma co_missing_pairs_witness :
  let options := ProfileOptions.mk false false true false false in
  let r := profile (H:=exampleHost) missingTable options in
  let mp := computeMissingPatterns (columnsOf missingTable) missingTable 3 in
  missingnessPatterns r = Some mp
  ∧ topCoMissingPairs mp = [(("a", "b"), 2); (("a", "c"), 1); (("b", "c"), 1)]
  ∧ length (topCoMissingPairs mp) ≤ 10
  ∧ StronglySorted (λ a b, b.2 ≤ a.2) (topCoMissingPairs mp)
  ∧ 2 = coMissing missingTable "a" "b".
Proof.
  cbv zeta.
  set (options := ProfileOptions.mk false false true false false).
  set (mp := computeMissingPatterns (columnsOf missingTable) missingTable 3).
  assert (missingnessPatterns (profile (H:=exampleHost) missingTable options)
          = Some mp) as Hmp by (vm_compute; reflexivity).
  assert (topCoMissingPairs mp
          = [(("a", "b"), 2); (("a", "c"), 1); (("b", "c"), 1)]) as Hpairs
    by (vm_compute; reflexivity).
  split; [exact Hmp|]. split; [exact Hpairs|].
  destruct (co_missing_pairs (H:=exampleHost) missingTable options mp Hmp)
    as (Hlen & Hsorted & Hentry & _).
  split; [exact Hlen|]. split; [exact Hsorted|].
  apply (Hentry "a" "b" 2). rewrite Hpairs. apply list_elem_of_here.
Defined.

Lemma outliers_entries_witness :
  let options := ProfileOptions.mk false false false true false in
  let r := profile (H:=exampleHost) basicTable options in
  ∃ out, outliers r = Some out
         ∧ (is_Some (out !! "age")
            ↔ ∃ s, columnStats r !! "age" = Some s
                   ∧ is_Some (numericStats s)).
Proof.
  cbv zeta. eexists. split; [vm_compute; reflexivity|].
  match goal with
  | |- is_Some (?out !! _) ↔ _ =>
      destruct (outliers_entries (H:=exampleHost) basicTable
                  (ProfileOptions.mk false false false true false) out)
        with "age" as [Hentry _]; [vm_compute; reflexivity|]
  end.
  exact Hentry.
Defined.

Lemma entropy_entries_witness :
  let options := ProfileOptions.mk false false false false true in
  let r := profile (H:=exampleHost) basicTable options in
  ∃ ce, categoricalEntropy r = Some ce
        ∧ (is_Some (ce !! "name")
           ↔ ∃ s, columnStats r !! "name" = Some s
                  ∧ is_Some (categoricalStats s)).
Proof.
  cbv zeta. eexists. split; [vm_compute; reflexivity|].
  match goal with
  | |- is_Some (?ce !! _) ↔ _ =>
      apply (entropy_entries (H:=exampleHost) basicTable
               (ProfileOptions.mk false false false false true) ce)
  end.
  vm_compute. reflexivity.
Defined.

Lemma candidate_keys_witness :
  let options := ProfileOptions.mk false true false false false in
  let r := profile (H:=exampleHost) constructorTable options in
  let kd := computeKeysAndDeps (H:=exampleHost)
              (columnsOf constructorTable) constructorTable 2 in
  keysAndDependencies r = Some kd
  ∧ length (columns r) ≤ 20
  ∧ candidatePrimaryKeys kd = [["constructor"]]
  ∧ (["constructor"] ∈ candidatePrimaryKeys kd
     ↔ ∃ col, ["constructor"] = [col] ∧ col ∈ columns r
              ∧ (∀ row, row ∈ constructorTable →
                        notMissing (get row col) = true)
              ∧ (∀ i j ri rj, i < j →
                   constructorTable !! i = Some ri →
                   constructorTable !! j = Some rj →
                   sameValueZero (get rj col) (get ri col) = false)).
Proof.
  cbv zeta.
  set (options := ProfileOptions.mk false true false false false).
  set (kd := computeKeysAndDeps (H:=exampleHost)
               (columnsOf constructorTable) constructorTable 2).
  assert (keysAndDependencies
            (profile (H:=exampleHost) constructorTable options)
          = Some kd) as Hkd by (vm_compute; reflexivity).
  assert (length (columns (profile (H:=exampleHost) constructorTable options))
          ≤ 20) as Hlen by (vm_compute; lia).
  split; [exact Hkd|]. split; [exact Hlen|].
  split; [vm_compute; reflexivity|].
  exact (candidate_keys (H:=exampleHost) constructorTable options kd Hkd Hlen
           ["constructor"]).
Defined.

Lemma functional_dependency_sound_witness :
  let options := ProfileOptions.mk false true false false false in
  let r := profile (H:=exampleHost) inheritedGroupTable options in
  let kd := computeKeysAndDeps (H:=exampleHost)
              (columnsOf inheritedGroupTable) inheritedGroupTable 3 in
  let fd := {| from := ["constructor"]; to := "b" |} in
  keysAndDependencies r = Some kd
  ∧ fd ∈ functionalDependencies kd
  ∧ ∃ a b, fd = {| from := [a]; to := b |} ∧ a ≠ b
           ∧ ([a] ∉ candidatePrimaryKeys kd)
           ∧ ∃ r1 r2, r1 ∈ inheritedGroupTable ∧ r2 ∈ inheritedGroupTable
                      ∧ notMissing (get r1 a) = true
                      ∧ notMissing (get r2 a) = true
                      ∧ stringKey (H:=exampleHost) (get r1 a)
                        ≠ stringKey (H:=exampleHost) (get r2 a).
Proof.
  cbv zeta.
  set (options := ProfileOptions.mk false true false false false).
  set (kd := computeKeysAndDeps (H:=exampleHost)
               (columnsOf inheritedGroupTable) inheritedGroupTable 3).
  set (fd := {| from := ["constructor"]; to := "b" |}).
  assert (keysAndDependencies
            (profile (H:=exampleHost) inheritedGroupTable options)
          = Some kd) as Hkd by (vm_compute; reflexivity).
  assert (fd ∈ functionalDependencies kd) as Hfd
    by (vm_compute; apply list_elem_of_here).
  split; [exact Hkd|]. split; [exact Hfd|].
  destruct (functional_dependency_sound (H:=exampleHost) inheritedGroupTable
              options kd fd Hkd Hfd)
    as (a & b & Heq & _ & _ & Hne & Hkey & Htwo & _).
  exists a, b. split; [exact Heq|]. split; [exact Hne|].
  split; [exact Hkey|exact Htwo].
Defined.

Lemma zscore_needs_spread_witness :
  let options := ProfileOptions.mk false false false true false in
  let r := profile (H:=exampleHost) nanTable options in
  ∃ out o s stat,
    outliers r = Some out
    ∧ out !! "value" = Some o
    ∧ columnStats r !! "value" = Some s
    ∧ numericStats s = Some stat
    ∧ PrimFloat.ltb 0 (NumericStats.stddev stat) = false
    ∧ zscoreCount o = 0.
Proof.
  cbv zeta. do 4 eexists.
  split; [vm_compute; reflexivity|].
  split; [vm_compute; reflexivity|].
  split; [vm_compute; reflexivity|].
  split; [vm_compute; reflexivity|].
  split; [vm_compute; reflexivity|].
  eapply (zscore_needs_spread (H:=exampleHost) nanTable
            (ProfileOptions.mk false false false true false)
            _ "value");
    vm_compute; reflexivity.
Defined.

Lemma association_by_type_witness :
  let options := ProfileOptions.mk true false false false false in
  let r := profile (H:=exampleHost) associationTable options in
  let m := computeAssociationMatrix (H:=exampleHost)
             (columns r) (columnStats r) associationTable in
  associationMatrix r = Some m
  ∧ length (columns r) ≤ 50
  ∧ (is_Some (m !! "cat1") ↔ "cat1" ∈ columns r ∧ "cat1" ≠ "__proto__").
Proof.
  cbv zeta.
  set (options := ProfileOptions.mk true false false false false).
  set (r := profile (H:=exampleHost) associationTable options).
  set (m := computeAssociationMatrix (H:=exampleHost)
              (columns r) (columnStats r) associationTable).
  assert (associationMatrix r = Some m) as Hm by (vm_compute; reflexivity).
  assert (length (columns r) ≤ 50) as Hlen by (vm_compute; lia).
  split; [exact Hm|]. split; [exact Hlen|].
  destruct (association_by_type (H:=exampleHost) associationTable options
              m Hm Hlen) as [Hrows _].
  exact (Hrows "cat1").
Defined.

Lemma association_needs_two_rows_witness :
  let options := ProfileOptions.mk true false false false false in
  let r := profile (H:=exampleHost) associationTable options in
  let m := computeAssociationMatrix (H:=exampleHost)
             (columns r) (columnStats r) associationTable in
  ∃ v, associationMatrix r = Some m
       ∧ cell m "num1" "num2" = Some v
       ∧ 2 ≤ length (filter (λ row, notMissing (get row "num1")
                                    && notMissing (get row "num2"))
                            associationTable).
Proof.
  cbv zeta.
  set (options := ProfileOptions.mk true false false false false).
  set (r := profile (H:=exampleHost) associationTable options).
  set (m := computeAssociationMatrix (H:=exampleHost)
              (columns r) (columnStats r) associationTable).
  assert (associationMatrix r = Some m) as Hm by (vm_compute; reflexivity).
  eexists. split; [exact Hm|].
  split; [vm_compute; reflexivity|].
  eapply (association_needs_two_rows (H:=exampleHost) associationTable
            options m "num1" "num2"); [exact Hm|].
  vm_compute. reflexivity.
Defined.

Lemma single_valued_column_has_no_cell_witness :
  let options := ProfileOptions.mk true false false false false in
  let r := profile (H:=exampleHost) constantTable options in
  let m := computeAssociationMatrix (H:=exampleHost)
             (columns r) (columnStats r) constantTable in
  let s := columnStat (H:=exampleHost) constantTable 2 "a" in
  associationMatrix r = Some m
  ∧ columnStats r !! "a" = Some s
  ∧ numericStats s = None
  ∧ cell m "a" "b" = None ∧ cell m "b" "a" = None.
Proof.
  cbv zeta.
  set (options := ProfileOptions.mk true false false false false).
  set (r := profile (H:=exampleHost) constantTable options).
  set (m := computeAssociationMatrix (H:=exampleHost)
              (columns r) (columnStats r) constantTable).
  set (s := columnStat (H:=exampleHost) constantTable 2 "a").
  assert (associationMatrix r = Some m) as Hm by (vm_compute; reflexivity).
  assert (columnStats r !! "a" = Some s) as Hs by (vm_compute; reflexivity).
  assert (numericStats s = None) as Hnum by (vm_compute; reflexivity).
  split; [exact Hm|]. split; [exact Hs|]. split; [exact Hnum|].
  apply (single_valued_column_has_no_cell (H:=exampleHost) constantTable
           options m "a" s "x" Hm Hs Hnum).
  assert (Forall (λ row, notMissing (get row "a") = true →
                         toString (H:=exampleHost) (get row "a") = "x")
                 constantTable) as Hall.
  { unfold constantTable.
    repeat first [apply Forall_nil_2 | apply List.Forall_cons].
    all: vm_compute; intros; reflexivity. }
  intros row Hrow. rewrite Forall_forall in Hall. exact (Hall row Hrow).
Defined.

Lemma entropy_tail_share_witness :
  let options := ProfileOptions.mk false false false false true in
  let r := profile (H:=exampleHost) basicTable options in
  ∃ ce e s c,
    categoricalEntropy r = Some ce
    ∧ ce !! "name" = Some e
    ∧ columnStats r !! "name" = Some s
    ∧ categoricalStats s = Some c
    ∧ tailShareOutsideTop10 e
      = (Number.of_nat
           (length (filter (λ v, v ∉ (CategoricalStats.top10 c).*1)
                           (map (toString (H:=exampleHost))
                                (nonMissingValues basicTable "name"))))
         / Number.of_nat (present s))%float.
Proof.
  cbv zeta. do 4 eexists.
  split; [vm_compute; reflexivity|].
  split; [vm_compute; reflexivity|].
  split; [vm_compute; reflexivity|].
  split; [vm_compute; reflexivity|].
  eapply (entropy_tail_share (H:=exampleHost) basicTable
            (ProfileOptions.mk false false false false true) _ "name");
    vm_compute; reflexivity.
Defined.

Lemma nan_value_poisons_stats_witness :
  ∃ st, computeNumericStats (H:=exampleHost) [1; nan; 3]%float = Some st
        ∧ NumericStats.min st = nan
        ∧ NumericStats.stddev st = nan.
Proof.
  eexists. split; [vm_compute; reflexivity|].
  match goal with
  | |- NumericStats.min ?st = _ ∧ _ =>
      destruct (nan_value_poisons_stats (H:=exampleHost) [1; nan; 3]%float st)
        as (Hmin & _ & _ & Hsd); [vm_compute; reflexivity| |]
  end.
  - exists nan. split; [|reflexivity].
    apply list_elem_of_further, list_elem_of_here.
  - split; [exact Hmin|]. apply Hsd. simpl. lia.
Defined.
